(** * The drive-by-wire node of [ros/src/twist_controller/dbw_node.py]

    A shallow embedding of [DBWNode]: its attributes, the three subscriber
    callbacks, [publish], the body of the 50 Hz loop and [__init__], followed
    by the properties of the node that its specification states.

    Python floats are binary64 numbers and are modelled by Rocq's primitive
    floats; [None] is the [None] of [option].  The [Controller] class lives in
    [twist_controller.py] and is a parameter of the development. *)

From Stdlib Require Import ZArith List Bool Floats.PrimFloat.
From stdpp Require Import base option list gmap strings.
Import ListNotations.

#[local] Set Warnings "-inexact-float".
#[local] Open Scope Z_scope.

(** ** Incoming ROS messages *)

(** [geometry_msgs/Vector3] *)
Module Vector3.
Record t := mk { x : float; y : float; z : float }.
End Vector3.

(** [geometry_msgs/Twist] *)
Module Twist.
Record t := mk { linear : Vector3.t; angular : Vector3.t }.
End Twist.

(** The time stamp of a [std_msgs/Header]. *)
Module Time.
Record t := mk { secs : Z; nsecs : Z }.
End Time.

(** [std_msgs/Header] *)
Module Header.
Record t := mk { seq : Z; stamp : Time.t; frame_id : string }.
End Header.

(** [geometry_msgs/TwistStamped], received on [/twist_cmd] and on
    [/current_velocity]. *)
Module TwistStamped.
Record t := mk { header : Header.t; twist : Twist.t }.
End TwistStamped.

(** [std_msgs/Bool], received on [/vehicle/dbw_enabled]. *)
Module BoolMsg.
Record t := mk { data : bool }.
End BoolMsg.

(** ** Outgoing actuator commands

    Modelled from the spec: the [dbw_mkz_msgs] message declarations are not
    among the sources.  Each command has the fields that [publish] assigns
    (an enable flag, a value and, for the two pedals, a command type); a
    freshly constructed message holds the zero value of every field, and the
    two command-type constants [ThrottleCmd.CMD_PERCENT] and
    [BrakeCmd.CMD_TORQUE] are parameters of the node below. *)

Module ThrottleCmd.
Record t := mk { enable : bool; pedal_cmd_type : Z; pedal_cmd : float }.
Definition new : t := mk false 0 0%float.
Definition set_enable (v : bool) (m : t) : t :=
  mk v (pedal_cmd_type m) (pedal_cmd m).
Definition set_pedal_cmd_type (v : Z) (m : t) : t :=
  mk (enable m) v (pedal_cmd m).
Definition set_pedal_cmd (v : float) (m : t) : t :=
  mk (enable m) (pedal_cmd_type m) v.
End ThrottleCmd.

Module SteeringCmd.
Record t := mk { enable : bool; steering_wheel_angle_cmd : float }.
Definition new : t := mk false 0%float.
Definition set_enable (v : bool) (m : t) : t :=
  mk v (steering_wheel_angle_cmd m).
Definition set_steering_wheel_angle_cmd (v : float) (m : t) : t :=
  mk (enable m) v.
End SteeringCmd.

Module BrakeCmd.
Record t := mk { enable : bool; pedal_cmd_type : Z; pedal_cmd : float }.
Definition new : t := mk false 0 0%float.
Definition set_enable (v : bool) (m : t) : t :=
  mk v (pedal_cmd_type m) (pedal_cmd m).
Definition set_pedal_cmd_type (v : Z) (m : t) : t :=
  mk (enable m) v (pedal_cmd m).
Definition set_pedal_cmd (v : float) (m : t) : t :=
  mk (enable m) (pedal_cmd_type m) v.
End BrakeCmd.

(** ** The parameter server *)

(** A value held by the parameter server or written as a default in the
    source: a float or an integer literal, a string or a boolean. *)
Inductive param :=
  | PFloat (f : float)
  | PInt (i : Z)
  | PStr (s : string)
  | PBool (b : bool).

(** [rospy.get_param(name, default)]: the value stored under [name], or
    [default] when the server has none. *)
Definition get_param (server : gmap string param) (name : string)
    (dflt : param) : param :=
  default dflt (server !! name).

(** The ten options that [__init__] looks up, with the default written next
    to each. *)
Definition options : list (string * param) :=
  [ ("~vehicle_mass", PFloat 1736.35);
    ("~fuel_capacity", PFloat 13.5);
    ("~brake_deadband", PFloat 0.1);
    ("~decel_limit", PInt (-5));
    ("~accel_limit", PFloat 1);
    ("~wheel_radius", PFloat 0.2413);
    ("~wheel_base", PFloat 2.8498);
    ("~steer_ratio", PFloat 14.8);
    ("~max_lat_accel", PFloat 3);
    ("~max_steer_angle", PFloat 8) ]%string.

(** [WRITE_CSV_LOG = False] *)
Definition WRITE_CSV_LOG : bool := false.

(** What the controller's [control] method does with a call: it returns a
    (throttle, brake, steering) triple or it raises. *)
Inductive outcome :=
  | Return (throttle brake steering : float)
  | Raise.

(** ** The node *)

Section Node.

(** The state of a [Controller] object, its constructor (called with nine
    positional arguments), its [control] method and the three terms of its
    [throttle_pid] that the csv log reads. *)
Context {ctrl : Type}.
Variable Controller : list param -> ctrl.
Variable control : ctrl -> float -> float -> float -> bool -> ctrl * outcome.
Variable throttle_pid : ctrl -> float * float * float.

(** [ThrottleCmd.CMD_PERCENT] and [BrakeCmd.CMD_TORQUE] *)
Variables CMD_PERCENT CMD_TORQUE : Z.

(** The attributes of a [DBWNode] object. *)
Record DBWNode := mkNode {
  controller : ctrl;
  proposed_linear_vel : option float;
  proposed_angular_vel : option float;
  current_linear_vel : option float;
  current_anuglar_vel : option float;
  _time_nsecs : option Z;
  dbw_enabled : bool
}.

Definition set_controller (c : ctrl) (self : DBWNode) : DBWNode :=
  mkNode c (proposed_linear_vel self) (proposed_angular_vel self)
    (current_linear_vel self) (current_anuglar_vel self)
    (_time_nsecs self) (dbw_enabled self).

Definition set_proposed_linear_vel (v : option float) (self : DBWNode)
    : DBWNode :=
  mkNode (controller self) v (proposed_angular_vel self)
    (current_linear_vel self) (current_anuglar_vel self)
    (_time_nsecs self) (dbw_enabled self).

Definition set_proposed_angular_vel (v : option float) (self : DBWNode)
    : DBWNode :=
  mkNode (controller self) (proposed_linear_vel self) v
    (current_linear_vel self) (current_anuglar_vel self)
    (_time_nsecs self) (dbw_enabled self).

Definition set_current_linear_vel (v : option float) (self : DBWNode)
    : DBWNode :=
  mkNode (controller self) (proposed_linear_vel self)
    (proposed_angular_vel self) v (current_anuglar_vel self)
    (_time_nsecs self) (dbw_enabled self).

Definition set_time_nsecs (v : option Z) (self : DBWNode) : DBWNode :=
  mkNode (controller self) (proposed_linear_vel self)
    (proposed_angular_vel self) (current_linear_vel self)
    (current_anuglar_vel self) v (dbw_enabled self).

Definition set_dbw_enabled (v : bool) (self : DBWNode) : DBWNode :=
  mkNode (controller self) (proposed_linear_vel self)
    (proposed_angular_vel self) (current_linear_vel self)
    (current_anuglar_vel self) (_time_nsecs self) v.

(** *** The subscriber callbacks *)

Definition proposed_cb (msg : TwistStamped.t) (self : DBWNode) : DBWNode :=
  let self :=
    set_proposed_linear_vel
      (Some (Vector3.x (Twist.linear (TwistStamped.twist msg)))) self in
  let self :=
    set_proposed_angular_vel
      (Some (Vector3.z (Twist.angular (TwistStamped.twist msg)))) self in
  set_time_nsecs
    (Some (Time.nsecs (Header.stamp (TwistStamped.header msg)))) self.

Definition current_cb (msg : TwistStamped.t) (self : DBWNode) : DBWNode :=
  set_current_linear_vel
    (Some (Vector3.x (Twist.linear (TwistStamped.twist msg)))) self.

Definition dbw_enabled_cb (msg : BoolMsg.t) (self : DBWNode) : DBWNode :=
  set_dbw_enabled (BoolMsg.data msg) self.

(** *** Observable effects

    What the loop does to the outside world, in the order in which it
    happens: a call of the controller's [control] method with its four
    arguments, a message handed to one of the three publishers, or a row
    written to the csv log. *)
Inductive effect :=
  | Control (proposed_linear proposed_angular current_linear : float)
      (enabled : bool)
  | PublishThrottle (tcmd : ThrottleCmd.t)
  | PublishSteering (scmd : SteeringCmd.t)
  | PublishBrake (bcmd : BrakeCmd.t)
  | CsvRow (time_nsecs : option Z)
      (current_linear proposed_linear proposed_angular : option float)
      (throttle brake steering : float) (pid : float * float * float).

(** *** [publish] *)

Definition publish (throttle brake steer : float) : list effect :=
  let tcmd := ThrottleCmd.new in
  let tcmd := ThrottleCmd.set_enable true tcmd in
  let tcmd := ThrottleCmd.set_pedal_cmd_type CMD_PERCENT tcmd in
  let tcmd := ThrottleCmd.set_pedal_cmd throttle tcmd in
  let sent := [PublishThrottle tcmd] in
  let scmd := SteeringCmd.new in
  let scmd := SteeringCmd.set_enable true scmd in
  let scmd := SteeringCmd.set_steering_wheel_angle_cmd steer scmd in
  let sent := sent ++ [PublishSteering scmd] in
  let bcmd := BrakeCmd.new in
  let bcmd := BrakeCmd.set_enable true bcmd in
  let bcmd := BrakeCmd.set_pedal_cmd_type CMD_TORQUE bcmd in
  let bcmd := BrakeCmd.set_pedal_cmd brake bcmd in
  sent ++ [PublishBrake bcmd].

(** *** One iteration of the [while] loop

    The result is the node after the iteration, the effects of the
    iteration and whether the loop is still running: [false] when
    [control] raised, since nothing in the node catches the exception. *)
Definition loop_body (self : DBWNode) : DBWNode * list effect * bool :=
  match proposed_linear_vel self, proposed_angular_vel self,
        current_linear_vel self with
  | Some pl, Some pa, Some cl =>
      let en := dbw_enabled self in
      let '(c, out) := control (controller self) pl pa cl en in
      let self := set_controller c self in
      match out with
      | Raise => (self, [Control pl pa cl en], false)
      | Return throttle brake steering =>
          let sent :=
            if dbw_enabled self then
              publish throttle brake steering ++
              (if WRITE_CSV_LOG then
                 [CsvRow (_time_nsecs self) (current_linear_vel self)
                    (proposed_linear_vel self) (proposed_angular_vel self)
                    throttle brake steering (throttle_pid (controller self))]
               else [])
            else [] in
          (self, Control pl pa cl en :: sent, true)
      end
  | _, _, _ => (self, [], true)
  end.

(** *** The node over time

    What happens to the node between start-up and shutdown: a message
    arrives on one of the three topics and its callback runs, or the loop
    runs one iteration. *)
Inductive event :=
  | Proposed (msg : TwistStamped.t)
  | Current (msg : TwistStamped.t)
  | DbwEnabled (msg : BoolMsg.t)
  | Tick.

(** A callback, as a function of the message that triggers it. *)
Definition callback (e : event) (self : DBWNode) : DBWNode :=
  match e with
  | Proposed msg => proposed_cb msg self
  | Current msg => current_cb msg self
  | DbwEnabled msg => dbw_enabled_cb msg self
  | Tick => self
  end.

(** [loop], run over the events that occur until shutdown, each callback
    and each iteration running to completion.  An exception raised by
    [control] leaves [loop] and [__init__] and ends the process: the events
    that follow have no effect. *)
Fixpoint loop (evs : list event) (self : DBWNode)
    : DBWNode * list effect * bool :=
  match evs with
  | [] => (self, [], true)
  | Tick :: evs =>
      let '(self, out, running) := loop_body self in
      if running then
        let '(self, out', running) := loop evs self in
        (self, out ++ out', running)
      else (self, out, false)
  | e :: evs => loop evs (callback e self)
  end.

(** *** [__init__] *)

(** The arguments of the [Controller(...)] call. *)
Definition controller_args (server : gmap string param) : list param :=
  let vehicle_mass := get_param server "~vehicle_mass" (PFloat 1736.35) in
  let fuel_capacity := get_param server "~fuel_capacity" (PFloat 13.5) in
  let brake_deadband := get_param server "~brake_deadband" (PFloat 0.1) in
  let decel_limit := get_param server "~decel_limit" (PInt (-5)) in
  let accel_limit := get_param server "~accel_limit" (PFloat 1) in
  let wheel_radius := get_param server "~wheel_radius" (PFloat 0.2413) in
  let wheel_base := get_param server "~wheel_base" (PFloat 2.8498) in
  let steer_ratio := get_param server "~steer_ratio" (PFloat 14.8) in
  let max_lat_accel := get_param server "~max_lat_accel" (PFloat 3) in
  let max_steer_angle := get_param server "~max_steer_angle" (PFloat 8) in
  [ vehicle_mass; wheel_radius; accel_limit; decel_limit; wheel_base;
    steer_ratio; PFloat 0.1; max_lat_accel; max_steer_angle ].

(** The node as [__init__] leaves it when it calls [self.loop()]. *)
Definition init (server : gmap string param) : DBWNode :=
  {| controller := Controller (controller_args server);
     proposed_linear_vel := None;
     proposed_angular_vel := None;
     current_linear_vel := None;
     current_anuglar_vel := None;
     _time_nsecs := None;
     dbw_enabled := false |}.

(** [DBWNode()]: construct the node and run its loop until shutdown. *)
Definition main (server : gmap string param) (evs : list event)
    : DBWNode * list effect * bool :=
  loop evs (init server).

(** *** Threads

    rospy runs the callbacks of a subscriber on a thread of their own
    while [loop] runs on the main thread, and the node takes no lock.  The
    model below lets the threads take turns between two statements of a
    callback and between two attribute reads of the loop. *)

(** Where the main thread stands in [loop], with the values it has
    loaded so far. *)
Inductive pc :=
  | At128  (* test [self.proposed_linear_vel is not None] *)
  | At129  (* test [self.proposed_angular_vel is not None] *)
  | At130  (* test [self.current_linear_vel is not None] *)
  | At133  (* load [self.proposed_linear_vel] *)
  | At134 (pl : float)  (* load [self.proposed_angular_vel] *)
  | At135 (pl pa : float)  (* load [self.current_linear_vel] *)
  | At136 (pl pa cl : float)  (* load [self.dbw_enabled], call [control] *)
  | At138 (throttle brake steering : float)  (* test [self.dbw_enabled] *)
  | Exited  (* an exception has left [loop] *)
  | NoneArgument.  (* an argument of [control] was loaded as [None] *)

(** One step of the main thread.  The end of an iteration ([rate.sleep()]
    and the test of the [while]) leads back to line 128. *)
Definition loop_step (self : DBWNode) (p : pc)
    : DBWNode * pc * list effect :=
  match p with
  | At128 =>
      (self, if proposed_linear_vel self is Some _ then At129 else At128, [])
  | At129 =>
      (self, if proposed_angular_vel self is Some _ then At130 else At128, [])
  | At130 =>
      (self, if current_linear_vel self is Some _ then At133 else At128, [])
  | At133 =>
      (self,
       if proposed_linear_vel self is Some pl then At134 pl
       else NoneArgument, [])
  | At134 pl =>
      (self,
       if proposed_angular_vel self is Some pa then At135 pl pa
       else NoneArgument, [])
  | At135 pl pa =>
      (self,
       if current_linear_vel self is Some cl then At136 pl pa cl
       else NoneArgument, [])
  | At136 pl pa cl =>
      let en := dbw_enabled self in
      let '(c, out) := control (controller self) pl pa cl en in
      (set_controller c self,
       match out with
       | Return throttle brake steering => At138 throttle brake steering
       | Raise => Exited
       end,
       [Control pl pa cl en])
  | At138 throttle brake steering =>
      (self, At128,
       if dbw_enabled self then
         publish throttle brake steering ++
         (if WRITE_CSV_LOG then
            [CsvRow (_time_nsecs self) (current_linear_vel self)
               (proposed_linear_vel self) (proposed_angular_vel self)
               throttle brake steering (throttle_pid (controller self))]
          else [])
       else [])
  | Exited => (self, Exited, [])
  | NoneArgument => (self, NoneArgument, [])
  end.

(** What a thread does in one turn: an assignment of a callback, named by
    its line in the source, or a step of the main thread. *)
Inductive atom :=
  | Line177 (msg : TwistStamped.t)
  | Line178 (msg : TwistStamped.t)
  | Line180 (msg : TwistStamped.t)
  | Line183 (msg : TwistStamped.t)
  | Line188 (msg : BoolMsg.t)
  | LoopStep.

Definition turn (a : atom) (self : DBWNode) (p : pc)
    : DBWNode * pc * list effect :=
  match a with
  | Line177 msg =>
      (set_proposed_linear_vel
         (Some (Vector3.x (Twist.linear (TwistStamped.twist msg)))) self,
       p, [])
  | Line178 msg =>
      (set_proposed_angular_vel
         (Some (Vector3.z (Twist.angular (TwistStamped.twist msg)))) self,
       p, [])
  | Line180 msg =>
      (set_time_nsecs
         (Some (Time.nsecs (Header.stamp (TwistStamped.header msg)))) self,
       p, [])
  | Line183 msg =>
      (set_current_linear_vel
         (Some (Vector3.x (Twist.linear (TwistStamped.twist msg)))) self,
       p, [])
  | Line188 msg => (set_dbw_enabled (BoolMsg.data msg) self, p, [])
  | LoopStep => loop_step self p
  end.

(** The node under a schedule, which lists whose turn it is. *)
Fixpoint exec (sched : list atom) (self : DBWNode) (p : pc)
    : DBWNode * pc * list effect :=
  match sched with
  | [] => (self, p, [])
  | a :: sched =>
      let '(self, p, out) := turn a self p in
      let '(self, p, out') := exec sched self p in
      (self, p, out ++ out')
  end.

(** The statements of a callback, in order. *)
Definition statements (e : event) : list atom :=
  match e with
  | Proposed msg => [Line177 msg; Line178 msg; Line180 msg]
  | Current msg => [Line183 msg]
  | DbwEnabled msg => [Line188 msg]
  | Tick => []
  end.

(** The number of steps that the main thread takes for one iteration that
    starts from [self] and is not interrupted. *)
Definition iteration_steps (self : DBWNode) : nat :=
  match proposed_linear_vel self, proposed_angular_vel self,
        current_linear_vel self with
  | Some _, Some _, Some _ => 8
  | Some _, Some _, None => 3
  | Some _, None, _ => 2
  | None, _, _ => 1
  end.

(** The schedule in which nothing is interleaved: every callback and every
    iteration of the loop runs to completion before the next event. *)
Fixpoint sequential (evs : list event) (self : DBWNode) : list atom :=
  match evs with
  | [] => []
  | Tick :: evs =>
      repeat LoopStep (iteration_steps self) ++
      (let '(self, _, running) := loop_body self in
       if running then sequential evs self else [])
  | e :: evs => statements e ++ sequential evs (callback e self)
  end.

(** [interleave l r m]: [m] takes the turns of [l] and of [r], each in its
    own order. *)
Inductive interleave {A : Type} : list A -> list A -> list A -> Prop :=
  | interleave_nil : interleave [] [] []
  | interleave_left a l r m :
      interleave l r m -> interleave (a :: l) r (a :: m)
  | interleave_right a l r m :
      interleave l r m -> interleave l (a :: r) (a :: m).

(** The proposed linear and angular velocity [pl] and [pa] are those of
    one message among [evs]. *)
Definition from_one_update (evs : list event) (pl pa : float) : Prop :=
  exists msg,
    In (Proposed msg) evs /\
    pl = Vector3.x (Twist.linear (TwistStamped.twist msg)) /\
    pa = Vector3.z (Twist.angular (TwistStamped.twist msg)).

(** No call of [control] under the schedule [sched], from start-up, has a
    proposed linear velocity from one message of [evs] and a proposed
    angular velocity from another. *)
Definition no_torn_read (server : gmap string param) (evs : list event)
    (sched : list atom) : Prop :=
  forall pl pa cl en,
    In (Control pl pa cl en) (exec sched (init server) At128).2 ->
    from_one_update evs pl pa.

(** The three attributes that line 128 to 130 test are all set. *)
Definition ready (self : DBWNode) : Prop :=
  is_Some (proposed_linear_vel self) /\
  is_Some (proposed_angular_vel self) /\
  is_Some (current_linear_vel self).

(** What the main thread has tested so far still holds of the node. *)
Definition tested (self : DBWNode) (p : pc) : Prop :=
  match p with
  | At129 => is_Some (proposed_linear_vel self)
  | At130 =>
      is_Some (proposed_linear_vel self) /\
      is_Some (proposed_angular_vel self)
  | At133 | At134 _ | At135 _ _ => ready self
  | NoneArgument => False
  | At128 | At136 _ _ _ | At138 _ _ _ | Exited => True
  end.

(** The proposed velocities that the node holds, when it holds both, are
    those of one message of [hist]. *)
Definition coherent (hist : list event) (self : DBWNode) : Prop :=
  forall pl pa,
    proposed_linear_vel self = Some pl ->
    proposed_angular_vel self = Some pa ->
    from_one_update hist pl pa.

(** An effect that is an actuator command. *)
Definition is_command (e : effect) : bool :=
  match e with
  | PublishThrottle _ | PublishSteering _ | PublishBrake _ => true
  | Control _ _ _ _ | CsvRow _ _ _ _ _ _ _ _ => false
  end.

(** The statement that an exception of [control] costs one iteration only:
    the loop goes on with the events that follow. *)
Definition proceeds_after_fault : Prop :=
  forall self pl pa cl c evs,
    proposed_linear_vel self = Some pl ->
    proposed_angular_vel self = Some pa ->
    current_linear_vel self = Some cl ->
    control (controller self) pl pa cl (dbw_enabled self) = (c, Raise) ->
    (loop (Tick :: evs) self).1.2 =
    Control pl pa cl (dbw_enabled self) ::
    (loop evs (set_controller c self)).1.2.

(** The statement that each of the ten options, as [get_param] resolves it,
    is among the arguments of the [Controller(...)] call. *)
Definition passes_every_option (server : gmap string param) : Prop :=
  forall name dflt,
    In (name, dflt) options ->
    In (get_param server name dflt) (controller_args server).


(** *** Runs as a whole *)

(** The callbacks of the events of [evs], run in order; a [Tick] stores
    nothing. *)
Definition callbacks (evs : list event) (self : DBWNode) : DBWNode :=
  foldl (fun s e => callback e s) self evs.

(** The last message of [evs] on [/twist_cmd], if any. *)
Definition last_proposed (evs : list event) : option TwistStamped.t :=
  foldl (fun acc e => if e is Proposed msg then Some msg else acc) None evs.

(** The last message of [evs] on [/current_velocity], if any. *)
Definition last_current (evs : list event) : option TwistStamped.t :=
  foldl (fun acc e => if e is Current msg then Some msg else acc) None evs.

(** The flag of the last message of [evs] on [/vehicle/dbw_enabled], or
    [flag] when there is none. *)
Definition enabled_after (flag : bool) (evs : list event) : bool :=
  foldl (fun acc e => if e is DbwEnabled msg then BoolMsg.data msg else acc)
    flag evs.

(** No message of [evs] on [/vehicle/dbw_enabled] carries [True]. *)
Definition never_enables (evs : list event) : bool :=
  forallb (fun e => if e is DbwEnabled msg then negb (BoolMsg.data msg)
                    else true) evs.

Definition is_tick (e : event) : bool :=
  if e is Tick then true else false.

Definition is_control (e : effect) : bool :=
  if e is Control _ _ _ _ then true else false.

(** What an iteration that calls [control] adds to the trace: the call,
    followed by the three commands when a triple is published. *)
Record call := mkCall {
  call_proposed_linear : float;
  call_proposed_angular : float;
  call_current_linear : float;
  call_enabled : bool;
  call_published : option (float * float * float)
}.

Definition call_trace (k : call) : list effect :=
  Control (call_proposed_linear k) (call_proposed_angular k)
    (call_current_linear k) (call_enabled k) ::
  match call_published k with
  | Some (throttle, brake, steering) => publish throttle brake steering
  | None => []
  end.

(** The position, among the arguments of the [Controller(...)] call, of
    each option that is passed. *)
Definition passed_options : list (string * nat) :=
  [ ("~vehicle_mass", 0); ("~wheel_radius", 1); ("~accel_limit", 2);
    ("~decel_limit", 3); ("~wheel_base", 4); ("~steer_ratio", 5);
    ("~max_lat_accel", 7); ("~max_steer_angle", 8) ]%string%nat.

(** *** Iterations that callbacks interleave *)

(** A turn that is a statement of a callback. *)
Definition is_store (a : atom) : bool :=
  if a is LoopStep then false else true.

Definition is_line188 (a : atom) : bool :=
  if a is Line188 _ then true else false.

(** The node after a statement of a callback. *)
Definition store (a : atom) (self : DBWNode) : DBWNode :=
  match a with
  | Line177 msg =>
      set_proposed_linear_vel
        (Some (Vector3.x (Twist.linear (TwistStamped.twist msg)))) self
  | Line178 msg =>
      set_proposed_angular_vel
        (Some (Vector3.z (Twist.angular (TwistStamped.twist msg)))) self
  | Line180 msg =>
      set_time_nsecs
        (Some (Time.nsecs (Header.stamp (TwistStamped.header msg)))) self
  | Line183 msg =>
      set_current_linear_vel
        (Some (Vector3.x (Twist.linear (TwistStamped.twist msg)))) self
  | Line188 msg => set_dbw_enabled (BoolMsg.data msg) self
  | LoopStep => self
  end.

(** The node after the statements [g], in order. *)
Definition stores (g : list atom) (self : DBWNode) : DBWNode :=
  foldl (fun s a => store a s) self g.

(** One iteration of the loop from line 128, when the three tests pass: its
    eight steps (three tests, four loads with the call, the test of line
    138), with the statements of callbacks that run between two of them. *)
Definition interleaved_iteration (g1 g2 g3 g4 g5 g6 g7 : list atom)
    : list atom :=
  LoopStep :: g1 ++ LoopStep :: g2 ++ LoopStep :: g3 ++
  LoopStep :: g4 ++ LoopStep :: g5 ++ LoopStep :: g6 ++
  LoopStep :: g7 ++ [LoopStep].

(** The message of the last turn of [g] that is line 177, line 178 or line
    183, and the flag of the last turn that is line 188. *)
Definition last_line177 (g : list atom) : option TwistStamped.t :=
  foldl (fun acc a => if a is Line177 msg then Some msg else acc) None g.

Definition last_line178 (g : list atom) : option TwistStamped.t :=
  foldl (fun acc a => if a is Line178 msg then Some msg else acc) None g.

Definition last_line183 (g : list atom) : option TwistStamped.t :=
  foldl (fun acc a => if a is Line183 msg then Some msg else acc) None g.

Definition last_line188 (g : list atom) : option BoolMsg.t :=
  foldl (fun acc a => if a is Line188 msg then Some msg else acc) None g.

(** The main thread is about to load the proposed linear velocity (line 133)
    or the proposed angular velocity (line 134). *)
Definition loads_pair (p : pc) : bool :=
  match p with
  | At133 | At134 _ => true
  | _ => false
  end.

(** The main thread has loaded the proposed linear velocity and not yet the
    angular one. *)
Definition between_loads (p : pc) : bool :=
  if p is At134 _ then true else false.

(** [unsplit sched self p writing]: under the schedule [sched], started with
    the node [self] and the main thread at [p], the two assignments of
    [proposed_cb] and the two loads of the loop do not split each other: no
    load of line 133 or 134 runs between line 177 and line 178 of a
    callback, and neither line 177 nor line 178 runs between the load of line
    133 and the load of line 134.  [writing] tells whether a callback stands
    between its line 177 and its line 178 when the schedule starts. *)
Fixpoint unsplit (sched : list atom) (self : DBWNode) (p : pc)
    (writing : bool) : bool :=
  match sched with
  | [] => true
  | a :: sched =>
      let '(self', p', _) := turn a self p in
      match a with
      | Line177 _ => negb (between_loads p) && unsplit sched self' p' true
      | Line178 _ => negb (between_loads p) && unsplit sched self' p' false
      | LoopStep =>
          negb (writing && loads_pair p) && unsplit sched self' p' writing
      | _ => unsplit sched self' p' writing
      end
  end.

(** The statement that whenever an iteration calls [control], it publishes
    the triple exactly when the flag it gave to [control] is true, whatever
    statements of callbacks run during the iteration. *)
Definition publishes_iff_told_enabled : Prop :=
  forall self g1 g2 g3 g4 g5 g6 g7 pl pa cl en sent,
    ready self ->
    forallb is_store (g1 ++ g2 ++ g3 ++ g4 ++ g5 ++ g6 ++ g7) = true ->
    (forall c pl pa cl en, (control c pl pa cl en).2 <> Raise) ->
    (exec (interleaved_iteration g1 g2 g3 g4 g5 g6 g7) self At128).2 =
      Control pl pa cl en :: sent ->
    existsb is_command sent = en.

(** *** Start-up

    [__init__] creates the subscribers on lines 83 to 87 and stores the
    initial values of the attributes on lines 89 to 100 afterwards, on the
    main thread: the callback of a message that arrives in between runs
    before or between these stores.  An attribute that no statement has
    assigned yet is shown with the value that [__init__] will give it;
    nothing reads it before the loop starts. *)

Definition set_current_anuglar_vel (v : option float) (self : DBWNode)
    : DBWNode :=
  mkNode (controller self) (proposed_linear_vel self)
    (proposed_angular_vel self) (current_linear_vel self) v
    (_time_nsecs self) (dbw_enabled self).

(** The stores of [__init__], named by their line. *)
Inductive init_line :=
  | Line89 | Line90 | Line93 | Line94 | Line98 | Line100.

Definition init_store (l : init_line) (self : DBWNode) : DBWNode :=
  match l with
  | Line89 => set_proposed_linear_vel None self
  | Line90 => set_proposed_angular_vel None self
  | Line93 => set_current_linear_vel None self
  | Line94 => set_current_anuglar_vel None self
  | Line98 => set_time_nsecs None self
  | Line100 => set_dbw_enabled false self
  end.

Definition init_lines : list init_line :=
  [Line89; Line90; Line93; Line94; Line98; Line100].

(** A turn during start-up: a store of [__init__] or a statement of a
    callback. *)
Inductive startup_atom :=
  | InitStore (l : init_line)
  | CallbackStore (a : atom).

Definition startup_turn (t : startup_atom) (self : DBWNode) : DBWNode :=
  match t with
  | InitStore l => init_store l self
  | CallbackStore a => store a self
  end.

(** The node after the turns [early] of start-up. *)
Definition startup (early : list startup_atom) (self : DBWNode) : DBWNode :=
  foldl (fun s t => startup_turn t s) self early.

(** The statement that nothing the node does, from the creation of the
    subscribers on, makes a ready node not ready: of the turns [early] of
    start-up, none that follows a ready node leaves a node that is not. *)
Definition readiness_never_lost (server : gmap string param) : Prop :=
  forall evs early before after,
    interleave (map InitStore init_lines)
      (map CallbackStore (flat_map statements evs)) early ->
    early = before ++ after ->
    ready (startup before (init server)) ->
    ready (startup early (init server)).




(** ** Properties *)

(** *** Start-up *)

Lemma loop_body_not_ready self :
  proposed_linear_vel self = None \/
  proposed_angular_vel self = None \/
  current_linear_vel self = None ->
  loop_body self = (self, [], true).
Proof.
  unfold loop_body.
  destruct (proposed_linear_vel self), (proposed_angular_vel self),
    (current_linear_vel self); intros [H | [H | H]];
    solve [discriminate H | reflexivity].
Qed.

Lemma loop_ticks_not_ready self n :
  proposed_linear_vel self = None \/
  proposed_angular_vel self = None \/
  current_linear_vel self = None ->
  loop (repeat Tick n) self = (self, [], true).
Proof.
  intros H. induction n as [| n IH]; [reflexivity |].
  cbn [repeat loop]. rewrite (loop_body_not_ready self H), IH. reflexivity.
Qed.

(** Until a message has arrived on [/twist_cmd] and one on
    [/current_velocity], the node calls nothing and publishes nothing. *)
Lemma loop_silent_before_first_messages evs : forall self,
  (proposed_linear_vel self = None /\ forall msg, ~ In (Proposed msg) evs) \/
  (current_linear_vel self = None /\ forall msg, ~ In (Current msg) evs) ->
  (loop evs self).1.2 = [] /\ (loop evs self).2 = true.
Proof.
  induction evs as [| e evs IH]; intros self H; [split; reflexivity |].
  assert (Hcb : e <> Tick ->
    (loop evs (callback e self)).1.2 = [] /\
    (loop evs (callback e self)).2 = true).
  { intros He. apply IH.
    destruct H as [[Hpl Hno] | [Hcl Hno]]; [left | right];
      (split; [| intros msg Hin; apply (Hno msg); right; exact Hin]).
    - destruct e as [msg | msg | msg |]; try exact Hpl; try congruence.
      destruct (Hno msg). left. reflexivity.
    - destruct e as [msg | msg | msg |]; try exact Hcl; try congruence.
      destruct (Hno msg). left. reflexivity. }
  destruct e; try (apply Hcb; discriminate). clear Hcb.
  cbn [loop]. rewrite loop_body_not_ready by tauto.
  assert (Hrest : (loop evs self).1.2 = [] /\ (loop evs self).2 = true).
  { apply IH. destruct H as [[Hpl Hno] | [Hcl Hno]]; [left | right];
      (split; [assumption | intros msg Hin; apply (Hno msg); right; exact Hin]). }
  destruct (loop evs self) as [[self' out] running]. exact Hrest.
Qed.

(** X1: from start-up, as long as no message has arrived on [/twist_cmd]
    or none has arrived on [/current_velocity], the run calls [control]
    never and publishes nothing, and the loop keeps running. *)
Lemma main_silent_before_first_messages server evs :
  (forall msg, ~ In (Proposed msg) evs) \/
  (forall msg, ~ In (Current msg) evs) ->
  (main server evs).1.2 = [] /\ (main server evs).2 = true.
Proof.
  intros H. apply loop_silent_before_first_messages.
  destruct H as [H | H]; [left | right]; (split; [reflexivity | exact H]).
Qed.


(** C1: an iteration of the loop that finds the proposed linear velocity,
    the proposed angular velocity or the current linear velocity unset calls
    no [control], publishes nothing and leaves the node as it was, and so
    does any number of such iterations in a row. *)
Theorem not_ready_tick_is_silent self :
  proposed_linear_vel self = None \/
  proposed_angular_vel self = None \/
  current_linear_vel self = None ->
  loop_body self = (self, [], true) /\
  forall n, loop (repeat Tick n) self = (self, [], true).
Proof.
  intros H. split.
  - apply loop_body_not_ready, H.
  - intros n. apply loop_ticks_not_ready, H.
Qed.

(** *** The callbacks *)

(** C10: [current_cb] changes [current_linear_vel] only, [dbw_enabled_cb]
    changes [dbw_enabled] only, and [proposed_cb] changes only
    [proposed_linear_vel], [proposed_angular_vel] and [_time_nsecs]. *)
Theorem callbacks_frame (msg : TwistStamped.t) (flag : BoolMsg.t) self :
  (current_cb msg self =
   mkNode (controller self) (proposed_linear_vel self)
     (proposed_angular_vel self) (current_linear_vel (current_cb msg self))
     (current_anuglar_vel self) (_time_nsecs self) (dbw_enabled self)) /\
  (dbw_enabled_cb flag self =
   mkNode (controller self) (proposed_linear_vel self)
     (proposed_angular_vel self) (current_linear_vel self)
     (current_anuglar_vel self) (_time_nsecs self)
     (dbw_enabled (dbw_enabled_cb flag self))) /\
  (let self' := proposed_cb msg self in
   self' =
   mkNode (controller self) (proposed_linear_vel self')
     (proposed_angular_vel self') (current_linear_vel self)
     (current_anuglar_vel self) (_time_nsecs self') (dbw_enabled self)).
Proof. repeat split. Qed.

(** The callbacks of a list of messages, run in the order of arrival. *)
Lemma foldl_snoc {A B : Type} (f : A -> B -> A) (a : A) (l : list B) (b : B) :
  foldl f a (l ++ [b]) = f (foldl f a l) b.
Proof. revert a. induction l as [| x l IH]; intros a; cbn; auto. Qed.

(** C8: after any sequence of messages on one topic, whatever the node held
    before, the attributes of that topic hold the values of the last message
    and of no other. *)
Theorem last_value_wins (msgs : list TwistStamped.t) (msg : TwistStamped.t)
    (flags : list BoolMsg.t) (flag : BoolMsg.t) self :
  (let self' := foldl (fun s m => proposed_cb m s) self (msgs ++ [msg]) in
   proposed_linear_vel self' =
     Some (Vector3.x (Twist.linear (TwistStamped.twist msg))) /\
   proposed_angular_vel self' =
     Some (Vector3.z (Twist.angular (TwistStamped.twist msg))) /\
   _time_nsecs self' =
     Some (Time.nsecs (Header.stamp (TwistStamped.header msg)))) /\
  (let self' := foldl (fun s m => current_cb m s) self (msgs ++ [msg]) in
   current_linear_vel self' =
     Some (Vector3.x (Twist.linear (TwistStamped.twist msg)))) /\
  (let self' := foldl (fun s m => dbw_enabled_cb m s) self (flags ++ [flag]) in
   dbw_enabled self' = BoolMsg.data flag).
Proof. cbv zeta. rewrite !foldl_snoc. repeat split. Qed.

(** *** [publish] *)

(** C3: [publish] hands exactly three messages to the publishers: a
    throttle command of type [CMD_PERCENT] with the throttle value, a
    steering command with the steering value and a brake command of type
    [CMD_TORQUE] with the brake value, each with [enable] set. *)
Theorem publish_three_commands (throttle brake steer : float) :
  exists tcmd scmd bcmd,
    publish throttle brake steer =
      [PublishThrottle tcmd; PublishSteering scmd; PublishBrake bcmd] /\
    (ThrottleCmd.enable tcmd = true /\
     ThrottleCmd.pedal_cmd_type tcmd = CMD_PERCENT /\
     ThrottleCmd.pedal_cmd tcmd = throttle) /\
    (SteeringCmd.enable scmd = true /\
     SteeringCmd.steering_wheel_angle_cmd scmd = steer) /\
    (BrakeCmd.enable bcmd = true /\
     BrakeCmd.pedal_cmd_type bcmd = CMD_TORQUE /\
     BrakeCmd.pedal_cmd bcmd = brake).
Proof. do 3 eexists. repeat split. Qed.

(** *** One iteration *)

Lemma loop_body_ready self pl pa cl c out :
  proposed_linear_vel self = Some pl ->
  proposed_angular_vel self = Some pa ->
  current_linear_vel self = Some cl ->
  control (controller self) pl pa cl (dbw_enabled self) = (c, out) ->
  loop_body self =
  (set_controller c self,
   Control pl pa cl (dbw_enabled self) ::
   match out with
   | Return throttle brake steering =>
       if dbw_enabled self then publish throttle brake steering else []
   | Raise => []
   end,
   if out is Raise then false else true).
Proof.
  intros Hpl Hpa Hcl Hc. unfold loop_body. rewrite Hpl, Hpa, Hcl, Hc.
  destruct out as [throttle brake steering |]; [| reflexivity].
  cbn. destruct (dbw_enabled self); reflexivity.
Qed.

(** *** An exception in [control] *)

Lemma loop_tick_raise self pl pa cl c evs :
  proposed_linear_vel self = Some pl ->
  proposed_angular_vel self = Some pa ->
  current_linear_vel self = Some cl ->
  control (controller self) pl pa cl (dbw_enabled self) = (c, Raise) ->
  loop (Tick :: evs) self =
  (set_controller c self, [Control pl pa cl (dbw_enabled self)], false).
Proof.
  intros Hpl Hpa Hcl Hc. cbn [loop].
  rewrite (loop_body_ready self pl pa cl c _ Hpl Hpa Hcl Hc). reflexivity.
Qed.

(** C4, as the code has it: when [control] raises in an iteration, no
    command is published in that iteration, and the exception leaves the
    loop, which runs no further iteration: whatever events follow, nothing
    more is called or published. *)
Theorem controller_fault_ends_loop self pl pa cl c evs :
  proposed_linear_vel self = Some pl ->
  proposed_angular_vel self = Some pa ->
  current_linear_vel self = Some cl ->
  control (controller self) pl pa cl (dbw_enabled self) = (c, Raise) ->
  loop (Tick :: evs) self =
    (set_controller c self, [Control pl pa cl (dbw_enabled self)], false) /\
  existsb is_command (loop (Tick :: evs) self).1.2 = false.
Proof.
  intros Hpl Hpa Hcl Hc.
  rewrite (loop_tick_raise self pl pa cl c evs Hpl Hpa Hcl Hc).
  split; reflexivity.
Qed.

(** *** Readiness *)

Lemma ready_set_controller c self : ready self -> ready (set_controller c self).
Proof. intros H. exact H. Qed.

Lemma ready_callback e self : ready self -> ready (callback e self).
Proof.
  intros (Hpl & Hpa & Hcl).
  destruct e; cbn; unfold ready; cbn; repeat split; eauto.
Qed.

Lemma loop_body_attributes self :
  exists c, (loop_body self).1.1 = set_controller c self.
Proof.
  unfold loop_body.
  destruct (proposed_linear_vel self) as [pl |] eqn:Hpl;
    [| exists (controller self); destruct self; reflexivity].
  destruct (proposed_angular_vel self) as [pa |] eqn:Hpa;
    [| exists (controller self); destruct self; reflexivity].
  destruct (current_linear_vel self) as [cl |] eqn:Hcl;
    [| exists (controller self); destruct self; reflexivity].
  destruct (control (controller self) pl pa cl (dbw_enabled self))
    as [c [throttle brake steering |]]; exists c; reflexivity.
Qed.

Lemma ready_loop_body self : ready self -> ready (loop_body self).1.1.
Proof.
  intros H. destruct (loop_body_attributes self) as [c ->].
  apply ready_set_controller, H.
Qed.

Lemma ready_loop evs : forall self, ready self -> ready (loop evs self).1.1.
Proof.
  induction evs as [| e evs IH]; intros self H; [exact H |].
  destruct e; cbn [loop];
    try (apply IH; apply (ready_callback _ _ H)).
  pose proof (ready_loop_body self H) as Hb.
  destruct (loop_body self) as [[self1 out1] [|]]; cbn in Hb; [| exact Hb].
  specialize (IH self1 Hb).
  destruct (loop evs self1) as [[self2 out2] r2]. exact IH.
Qed.

Lemma ready_turn a self p : ready self -> ready (turn a self p).1.1.
Proof.
  intros (Hpl & Hpa & Hcl).
  destruct a; cbn; unfold ready; cbn; try (repeat split; eauto; fail).
  destruct p; cbn; try (repeat split; auto; fail).
  destruct (control _ _ _ _ _) as [c out]. repeat split; auto.
Qed.

Lemma ready_exec sched :
  forall self p, ready self -> ready (exec sched self p).1.1.
Proof.
  induction sched as [| a sched IH]; intros self p H; [exact H |].
  cbn [exec]. pose proof (ready_turn a self p H) as Ht.
  destruct (turn a self p) as [[self1 p1] out1]. cbn in Ht.
  specialize (IH self1 p1 Ht).
  destruct (exec sched self1 p1) as [[self2 p2] out2]. exact IH.
Qed.

Lemma tested_turn a self p :
  tested self p -> tested (turn a self p).1.1 (turn a self p).1.2.
Proof.
  intros H.
  destruct a; try (destruct p; cbn in *; unfold ready in *; cbn;
                   intuition eauto; fail).
  destruct p; cbn in *; unfold ready in *; try exact I; try exact H.
  - destruct (proposed_linear_vel self) eqn:E; cbn; [rewrite E |]; eauto.
  - destruct (proposed_angular_vel self) eqn:E; cbn; [rewrite E |]; eauto.
  - destruct (current_linear_vel self) eqn:E; cbn; unfold ready;
      [rewrite E |]; intuition eauto.
  - destruct H as ([pl E] & Hpa & Hcl). rewrite E. cbn. unfold ready.
    rewrite E. eauto.
  - destruct H as (Hpl & [pa E] & Hcl). rewrite E. cbn. unfold ready.
    rewrite E. eauto.
  - destruct H as (Hpl & Hpa & [cl ->]). exact I.
  - destruct (control _ _ _ _ _) as [c [throttle brake steering |]];
      exact I.
Qed.

(** Under no schedule does the loop pass [None] to [control]: from line 128
    the main thread never reaches [NoneArgument]. *)
Lemma exec_never_none_argument sched : forall self p,
  tested self p -> (exec sched self p).1.2 <> NoneArgument.
Proof.
  induction sched as [| a sched IH]; intros self p H.
  - cbn. intros ->. exact H.
  - cbn [exec]. pose proof (tested_turn a self p H) as Ht.
    destruct (turn a self p) as [[self1 p1] out1]. cbn in Ht.
    specialize (IH self1 p1 Ht).
    destruct (exec sched self1 p1) as [[self2 p2] out2]. exact IH.
Qed.

Lemma ready_invokes_control self :
  ready self ->
  exists pl pa cl sent,
    (loop_body self).1.2 = Control pl pa cl (dbw_enabled self) :: sent.
Proof.
  intros ([pl Hpl] & [pa Hpa] & [cl Hcl]).
  destruct (control (controller self) pl pa cl (dbw_enabled self))
    as [c out] eqn:Hc.
  rewrite (loop_body_ready self pl pa cl c out Hpl Hpa Hcl Hc).
  exists pl, pa, cl. eexists. reflexivity.
Qed.

(** *** The arguments of the constructor *)

Lemma controller_args_insert_unused server name v :
  name = "~fuel_capacity"%string \/ name = "~brake_deadband"%string ->
  controller_args (<[name := v]> server) = controller_args server.
Proof.
  intros [-> | ->]; unfold controller_args, get_param;
    rewrite !lookup_insert_ne by discriminate; reflexivity.
Qed.

(** C6, as the code has it: eight of the ten options (all but
    [fuel_capacity] and [brake_deadband]) are passed unchanged to the
    [Controller] constructor, as resolved by [get_param] with the defaults
    of the source; the constructor takes nine arguments, the seventh being the
    literal 0.1; the two other options are looked up and passed nowhere; and
    the loop depends on the options through the controller object only. *)
Theorem controller_receives_eight_options server :
  (forall name dflt,
     In (name, dflt) options ->
     name <> "~fuel_capacity"%string ->
     name <> "~brake_deadband"%string ->
     In (get_param server name dflt) (controller_args server)) /\
  (forall v,
     controller_args (<["~fuel_capacity"%string := v]> server) =
     controller_args server) /\
  (forall v,
     controller_args (<["~brake_deadband"%string := v]> server) =
     controller_args server) /\
  length (controller_args server) = 9%nat /\
  controller_args server !! 6%nat = Some (PFloat 0.1) /\
  controller_args ∅ =
    [ PFloat 1736.35; PFloat 0.2413; PFloat 1; PInt (-5); PFloat 2.8498;
      PFloat 14.8; PFloat 0.1; PFloat 3; PFloat 8 ] /\
  controller (init server) = Controller (controller_args server) /\
  (forall server' evs,
     Controller (controller_args server) =
     Controller (controller_args server') ->
     main server evs = main server' evs).
Proof.
  split; [| split; [| split; [| repeat split]]].
  - intros name dflt Hin Hfuel Hbrake. unfold options in Hin.
    repeat (destruct Hin as [Hin | Hin];
      [injection Hin as <- <-; try congruence;
       unfold controller_args; cbn; tauto |]).
    destruct Hin.
  - intros v. apply controller_args_insert_unused. left. reflexivity.
  - intros v. apply controller_args_insert_unused. right. reflexivity.
  - intros server' evs H. unfold main, init. rewrite H. reflexivity.
Qed.

(** *** The sequential schedule among the interleavings *)

Lemma exec_app s1 s2 : forall self p,
  exec (s1 ++ s2) self p =
  let '(self1, p1, out1) := exec s1 self p in
  let '(self2, p2, out2) := exec s2 self1 p1 in
  (self2, p2, out1 ++ out2).
Proof.
  induction s1 as [| a s1 IH]; intros self p; cbn [exec app].
  - destruct (exec s2 self p) as [[self2 p2] out2]. reflexivity.
  - destruct (turn a self p) as [[self0 p0] out0]. rewrite IH.
    destruct (exec s1 self0 p0) as [[self1 p1] out1].
    destruct (exec s2 self1 p1) as [[self2 p2] out2].
    rewrite app_assoc. reflexivity.
Qed.

Lemma exec_statements e self p :
  exec (statements e) self p = (callback e self, p, []).
Proof. destruct e; reflexivity. Qed.

Lemma exec_iteration self :
  exec (repeat LoopStep (iteration_steps self)) self At128 =
  let '(self', out, running) := loop_body self in
  (self', if running then At128 else Exited, out).
Proof.
  unfold iteration_steps, loop_body.
  destruct (proposed_linear_vel self) as [pl |] eqn:Hpl;
    [| cbn; rewrite Hpl; reflexivity].
  destruct (proposed_angular_vel self) as [pa |] eqn:Hpa;
    [| repeat (progress (cbn; rewrite ?Hpl, ?Hpa)); reflexivity].
  destruct (current_linear_vel self) as [cl |] eqn:Hcl;
    [| repeat (progress (cbn; rewrite ?Hpl, ?Hpa, ?Hcl)); reflexivity].
  repeat (progress (cbn; rewrite ?Hpl, ?Hpa, ?Hcl)).
  destruct (control (controller self) pl pa cl (dbw_enabled self))
    as [c [throttle brake steering |]]; cbn; [| reflexivity].
  destruct (dbw_enabled self); reflexivity.
Qed.

Lemma exec_sequential evs : forall self,
  exec (sequential evs self) self At128 =
  let '(self', out, running) := loop evs self in
  (self', if running then At128 else Exited, out).
Proof.
  induction evs as [| e evs IH]; intros self; [reflexivity |].
  assert (Hcb : e <> Tick ->
    exec (statements e ++ sequential evs (callback e self)) self At128 =
    let '(self', out, running) := loop evs (callback e self) in
    (self', if running then At128 else Exited, out)).
  { intros _. rewrite exec_app, exec_statements, IH.
    destruct (loop evs (callback e self)) as [[self' out] running].
    reflexivity. }
  destruct e; try (apply Hcb; discriminate). clear Hcb.
  cbn [sequential loop]. rewrite exec_app, exec_iteration.
  destruct (loop_body self) as [[self1 out1] [|]].
  - rewrite IH. destruct (loop evs self1) as [[self2 out2] running].
    reflexivity.
  - cbn. rewrite app_nil_r. reflexivity.
Qed.

Lemma from_one_update_app evs evs' pl pa :
  from_one_update evs pl pa -> from_one_update (evs ++ evs') pl pa.
Proof.
  intros (msg & Hin & Hpl & Hpa). exists msg.
  split; [apply in_or_app; left; exact Hin | split; assumption].
Qed.

Lemma loop_body_controls self pl pa cl en :
  In (Control pl pa cl en) (loop_body self).1.2 ->
  proposed_linear_vel self = Some pl /\ proposed_angular_vel self = Some pa.
Proof.
  unfold loop_body.
  destruct (proposed_linear_vel self) as [pl' |]; [| intros []].
  destruct (proposed_angular_vel self) as [pa' |]; [| intros []].
  destruct (current_linear_vel self) as [cl' |]; [| intros []].
  destruct (control (controller self) pl' pa' cl' (dbw_enabled self))
    as [c [throttle brake steering |]]; cbn.
  - destruct (dbw_enabled self); cbn; intuition congruence.
  - intuition congruence.
Qed.

Lemma coherent_callback hist e self :
  coherent hist self -> coherent (hist ++ [e]) (callback e self).
Proof.
  intros H pl pa. destruct e as [msg | msg | msg |]; cbn;
    try (intros Hpl Hpa; apply from_one_update_app, H; assumption).
  intros [= <-] [= <-]. exists msg.
  split; [apply in_or_app; right; left; reflexivity | split; reflexivity].
Qed.

Lemma loop_from_one_update evs : forall hist self,
  coherent hist self ->
  forall pl pa cl en,
    In (Control pl pa cl en) (loop evs self).1.2 ->
    from_one_update (hist ++ evs) pl pa.
Proof.
  induction evs as [| e evs IH]; intros hist self Hco pl pa cl en Hin;
    [destruct Hin |].
  replace (hist ++ e :: evs) with ((hist ++ [e]) ++ evs)
    by (rewrite <- app_assoc; reflexivity).
  assert (Hcb : In (Control pl pa cl en) (loop evs (callback e self)).1.2 ->
                from_one_update ((hist ++ [e]) ++ evs) pl pa).
  { apply IH, coherent_callback, Hco. }
  destruct e; try (apply Hcb, Hin). clear Hcb.
  cbn [loop] in Hin.
  pose proof (loop_body_controls self pl pa cl en) as Hb.
  destruct (loop_body_attributes self) as [c Hc].
  destruct (loop_body self) as [[self1 out1] running]. cbn in Hb, Hc.
  assert (Hhead : In (Control pl pa cl en) out1 ->
                  from_one_update ((hist ++ [Tick]) ++ evs) pl pa).
  { intros H. destruct (Hb H) as [Hpl Hpa].
    rewrite <- app_assoc. apply from_one_update_app, Hco; assumption. }
  destruct running; [| apply Hhead, Hin].
  subst self1. specialize (IH (hist ++ [Tick]) (set_controller c self)).
  destruct (loop evs (set_controller c self)) as [[self2 out2] running]. cbn in Hin, IH.
  apply in_app_or in Hin. destruct Hin as [Hin | Hin]; [apply Hhead, Hin |].
  apply (IH (coherent_callback hist Tick self Hco) pl pa cl en Hin).
Qed.

Lemma interleave_app_left {A : Type} (s l r m : list A) :
  interleave l r m -> interleave (s ++ l) r (s ++ m).
Proof.
  intros H. induction s as [| a s IH]; [exact H |].
  cbn. apply interleave_left, IH.
Qed.

Lemma interleave_app_right {A : Type} (s l r m : list A) :
  interleave l r m -> interleave l (s ++ r) (s ++ m).
Proof.
  intros H. induction s as [| a s IH]; [exact H |].
  cbn. apply interleave_right, IH.
Qed.

(** While the loop keeps running, the sequential schedule is one of the
    interleavings of the callbacks with the steps of the loop. *)
Lemma sequential_interleave evs : forall self,
  (loop evs self).2 = true ->
  exists k,
    interleave (flat_map statements evs) (repeat LoopStep k)
      (sequential evs self).
Proof.
  induction evs as [| e evs IH]; intros self Hrun.
  - exists 0%nat. constructor.
  - assert (Hcb : (loop evs (callback e self)).2 = true ->
      exists k,
        interleave (statements e ++ flat_map statements evs)
          (repeat LoopStep k)
          (statements e ++ sequential evs (callback e self))).
    { intros H. destruct (IH _ H) as [k Hk]. exists k.
      apply interleave_app_left, Hk. }
    destruct e; try (apply Hcb, Hrun). clear Hcb.
    cbn [loop sequential flat_map statements app] in *.
    destruct (loop_body self) as [[self1 out1] [|]]; [| discriminate Hrun].
    specialize (IH self1).
    destruct (loop evs self1) as [[self2 out2] running]. cbn in Hrun, IH.
    destruct (IH Hrun) as [k Hk]. exists (iteration_steps self + k)%nat.
    rewrite repeat_app. apply interleave_app_right, Hk.
Qed.

(** When every callback and every iteration of the loop runs to completion
    before the next one starts, the node does what [loop] does, and every
    call of [control] has the proposed linear and angular velocity of one
    and the same message. *)
Lemma sequential_schedule_has_no_torn_read server evs :
  (exec (sequential evs (init server)) (init server) At128).2 =
    (main server evs).1.2 /\
  no_torn_read server evs (sequential evs (init server)).
Proof.
  split.
  - rewrite exec_sequential. unfold main.
    destruct (loop evs (init server)) as [[self out] running]. reflexivity.
  - intros pl pa cl en Hin. rewrite exec_sequential in Hin.
    apply (loop_from_one_update evs [] (init server)) with (cl := cl) (en := en).
    + intros a b Ha. discriminate Ha.
    + destruct (loop evs (init server)) as [[self out] running]. exact Hin.
Qed.

(** *** Runs as a whole *)

Lemma loop_app evs1 : forall evs2 self,
  loop (evs1 ++ evs2) self =
  let '(self1, out1, running1) := loop evs1 self in
  if running1 then
    let '(self2, out2, running2) := loop evs2 self1 in
    (self2, out1 ++ out2, running2)
  else (self1, out1, false).
Proof.
  induction evs1 as [| e evs1 IH]; intros evs2 self.
  - cbn. destruct (loop evs2 self) as [[self2 out2] running2]. reflexivity.
  - destruct e; cbn [loop app]; try apply IH.
    destruct (loop_body self) as [[self0 out0] [|]]; [| reflexivity].
    rewrite IH. destruct (loop evs1 self0) as [[self1 out1] [|]];
      [| reflexivity].
    destruct (loop evs2 self1) as [[self2 out2] running2].
    rewrite app_assoc. reflexivity.
Qed.

(** X5: a run over two stretches of events is the run over the first
    followed, from the node it leaves, by the run over the second; and once
    an exception has left the loop, the events that follow change neither
    the node nor the trace. *)
Theorem loop_composes evs1 evs2 self :
  loop (evs1 ++ evs2) self =
    (let '(self1, out1, running1) := loop evs1 self in
     if running1 then
       let '(self2, out2, running2) := loop evs2 self1 in
       (self2, out1 ++ out2, running2)
     else (self1, out1, false)) /\
  ((loop evs1 self).2 = false -> loop (evs1 ++ evs2) self = loop evs1 self).
Proof.
  split; [apply loop_app |].
  rewrite loop_app. destruct (loop evs1 self) as [[self1 out1] [|]]; cbn;
    [discriminate | reflexivity].
Qed.

Lemma callbacks_snoc evs e self :
  callbacks (evs ++ [e]) self = callback e (callbacks evs self).
Proof. unfold callbacks. rewrite foldl_snoc. reflexivity. Qed.

Lemma callbacks_set_controller evs : forall c self,
  callbacks evs (set_controller c self) = set_controller c (callbacks evs self).
Proof.
  unfold callbacks.
  induction evs as [| e evs IH]; intros c self; [reflexivity |].
  cbn [foldl].
  replace (callback e (set_controller c self))
    with (set_controller c (callback e self)) by (destruct e; reflexivity).
  apply IH.
Qed.

Lemma loop_frame evs : forall self,
  (loop evs self).2 = true ->
  exists c, (loop evs self).1.1 = set_controller c (callbacks evs self).
Proof.
  induction evs as [| e evs IH]; intros self Hrun.
  - exists (controller self). destruct self; reflexivity.
  - destruct e; cbn [loop] in *; try (apply IH, Hrun).
    destruct (loop_body_attributes self) as [c0 Hc0].
    destruct (loop_body self) as [[self0 out0] [|]]; [| discriminate Hrun].
    cbn in Hc0. subst self0. specialize (IH (set_controller c0 self)).
    destruct (loop evs (set_controller c0 self)) as [[self1 out1] running1].
    cbn in *. destruct (IH Hrun) as [c Hc]. exists c.
    rewrite Hc, callbacks_set_controller. reflexivity.
Qed.

(** X6: the loop writes no attribute but [controller]: while it runs, the
    node after any events is the node that the callbacks of those events
    alone produce, up to the state of the controller. *)
Theorem loop_writes_controller_only evs self :
  (loop evs self).2 = true ->
  exists c,
    (loop evs self).1.1 =
    mkNode c (proposed_linear_vel (callbacks evs self))
      (proposed_angular_vel (callbacks evs self))
      (current_linear_vel (callbacks evs self))
      (current_anuglar_vel (callbacks evs self))
      (_time_nsecs (callbacks evs self))
      (dbw_enabled (callbacks evs self)).
Proof. intros Hrun. exact (loop_frame evs self Hrun). Qed.

Lemma callbacks_attributes evs : forall self,
  controller (callbacks evs self) = controller self /\
  proposed_linear_vel (callbacks evs self) =
    match last_proposed evs with
    | Some msg => Some (Vector3.x (Twist.linear (TwistStamped.twist msg)))
    | None => proposed_linear_vel self
    end /\
  proposed_angular_vel (callbacks evs self) =
    match last_proposed evs with
    | Some msg => Some (Vector3.z (Twist.angular (TwistStamped.twist msg)))
    | None => proposed_angular_vel self
    end /\
  _time_nsecs (callbacks evs self) =
    match last_proposed evs with
    | Some msg => Some (Time.nsecs (Header.stamp (TwistStamped.header msg)))
    | None => _time_nsecs self
    end /\
  current_linear_vel (callbacks evs self) =
    match last_current evs with
    | Some msg => Some (Vector3.x (Twist.linear (TwistStamped.twist msg)))
    | None => current_linear_vel self
    end /\
  current_anuglar_vel (callbacks evs self) = current_anuglar_vel self /\
  dbw_enabled (callbacks evs self) = enabled_after (dbw_enabled self) evs.
Proof.
  induction evs as [| e evs IH] using rev_ind; intros self.
  - repeat split.
  - rewrite callbacks_snoc. unfold last_proposed, last_current, enabled_after.
    rewrite !foldl_snoc.
    fold (last_proposed evs) (last_current evs)
      (enabled_after (dbw_enabled self) evs).
    destruct (IH self) as (Hc & Hpl & Hpa & Ht & Hcl & Hca & Hen).
    destruct e; cbn; repeat split; assumption.
Qed.

(** X7: whatever the order in which messages on different topics arrive,
    and whatever ticks fall between them, each attribute holds the value of
    the last message on its own topic, or its earlier value when no message
    came on that topic; [current_anuglar_vel] and the controller are never
    written by a callback. *)
Theorem last_message_per_topic_wins evs self :
  controller (callbacks evs self) = controller self /\
  proposed_linear_vel (callbacks evs self) =
    match last_proposed evs with
    | Some msg => Some (Vector3.x (Twist.linear (TwistStamped.twist msg)))
    | None => proposed_linear_vel self
    end /\
  proposed_angular_vel (callbacks evs self) =
    match last_proposed evs with
    | Some msg => Some (Vector3.z (Twist.angular (TwistStamped.twist msg)))
    | None => proposed_angular_vel self
    end /\
  _time_nsecs (callbacks evs self) =
    match last_proposed evs with
    | Some msg => Some (Time.nsecs (Header.stamp (TwistStamped.header msg)))
    | None => _time_nsecs self
    end /\
  current_linear_vel (callbacks evs self) =
    match last_current evs with
    | Some msg => Some (Vector3.x (Twist.linear (TwistStamped.twist msg)))
    | None => current_linear_vel self
    end /\
  current_anuglar_vel (callbacks evs self) = current_anuglar_vel self /\
  dbw_enabled (callbacks evs self) = enabled_after (dbw_enabled self) evs.
Proof. exact (callbacks_attributes evs self). Qed.

(** When nothing is interleaved, a tick calls [control] with the freshest
    values: after any events that include a proposal and a current velocity,
    and while the loop runs, the next tick calls [control] with the linear
    and angular velocity of the last proposal, the linear velocity of the
    last current-velocity message and the flag of the last enable message
    (the flag the node started with when there was none). *)
Lemma tick_reads_latest_messages evs self proposal current :
  (loop evs self).2 = true ->
  last_proposed evs = Some proposal ->
  last_current evs = Some current ->
  exists sent,
    (loop (evs ++ [Tick]) self).1.2 =
    (loop evs self).1.2 ++
    Control (Vector3.x (Twist.linear (TwistStamped.twist proposal)))
      (Vector3.z (Twist.angular (TwistStamped.twist proposal)))
      (Vector3.x (Twist.linear (TwistStamped.twist current)))
      (enabled_after (dbw_enabled self) evs) :: sent.
Proof.
  intros Hrun Hp Hc. rewrite loop_app.
  destruct (loop_frame evs self Hrun) as [c Hself].
  destruct (callbacks_attributes evs self)
    as (_ & Hpl & Hpa & _ & Hcl & _ & Hen).
  rewrite Hp in Hpl, Hpa. rewrite Hc in Hcl.
  destruct (loop evs self) as [[self1 out1] running1]. cbn in Hrun, Hself.
  subst running1 self1. cbn [loop].
  set (node := set_controller c (callbacks evs self)).
  destruct (control (controller node)
              (Vector3.x (Twist.linear (TwistStamped.twist proposal)))
              (Vector3.z (Twist.angular (TwistStamped.twist proposal)))
              (Vector3.x (Twist.linear (TwistStamped.twist current)))
              (dbw_enabled node)) as [c' out] eqn:Hcall.
  rewrite (loop_body_ready node _ _ _ c' out Hpl Hpa Hcl Hcall).
  replace (dbw_enabled node) with (enabled_after (dbw_enabled self) evs)
    by (symmetry; exact Hen).
  destruct out as [throttle brake steering |]; cbn; eexists;
    [rewrite app_nil_r |]; reflexivity.
Qed.

(** X9: callbacks of different topics commute, and a callback run twice
    with the same message stores what it stores when run once. *)
Theorem callbacks_commute (p c : TwistStamped.t) (f : BoolMsg.t) self :
  proposed_cb p (current_cb c self) = current_cb c (proposed_cb p self) /\
  proposed_cb p (dbw_enabled_cb f self) =
    dbw_enabled_cb f (proposed_cb p self) /\
  current_cb c (dbw_enabled_cb f self) =
    dbw_enabled_cb f (current_cb c self) /\
  proposed_cb p (proposed_cb p self) = proposed_cb p self /\
  current_cb c (current_cb c self) = current_cb c self /\
  dbw_enabled_cb f (dbw_enabled_cb f self) = dbw_enabled_cb f self.
Proof. repeat split. Qed.

(** *** The shape of a trace *)

Lemma loop_body_trace self :
  (loop_body self).1.2 = [] \/
  exists k,
    (loop_body self).1.2 = call_trace k /\
    (is_Some (call_published k) -> call_enabled k = true).
Proof.
  unfold loop_body.
  destruct (proposed_linear_vel self) as [pl |]; [| left; reflexivity].
  destruct (proposed_angular_vel self) as [pa |]; [| left; reflexivity].
  destruct (current_linear_vel self) as [cl |]; [| left; reflexivity].
  right.
  destruct (control (controller self) pl pa cl (dbw_enabled self))
    as [c [throttle brake steering |]]; cbn.
  - destruct (dbw_enabled self) eqn:Hen.
    + exists (mkCall pl pa cl true (Some (throttle, brake, steering))).
      split; reflexivity.
    + exists (mkCall pl pa cl false None).
      split; [reflexivity | intros [x Hx]; discriminate Hx].
  - exists (mkCall pl pa cl (dbw_enabled self) None).
    split; [reflexivity | intros [x Hx]; discriminate Hx].
Qed.

(** When nothing is interleaved, the trace is a sequence of calls of
    [control], at most one per tick, each followed by nothing or by one whole
    triple of commands, and a triple follows only a call that was given
    [enabled = True]. *)
Lemma loop_trace_shape evs self :
  exists calls,
    (loop evs self).1.2 = flat_map call_trace calls /\
    Forall (fun k => is_Some (call_published k) -> call_enabled k = true)
      calls /\
    (length calls <= length (List.filter is_tick evs))%nat.
Proof.
  revert self. induction evs as [| e evs IH]; intros self.
  - exists []. split; [reflexivity | split; [constructor | reflexivity]].
  - destruct e; cbn [loop List.filter is_tick]; try apply IH.
    destruct (loop_body_trace self) as [Hnil | (k & Hk & Hen)];
      destruct (loop_body self) as [[self0 out0] [|]]; cbn in *; subst out0.
    + specialize (IH self0).
      destruct (loop evs self0) as [[self1 out1] running1].
      destruct IH as (calls & Htrace & Hall & Hlen). exists calls.
      split; [exact Htrace | split; [exact Hall | lia]].
    + exists []. split; [reflexivity | split; [constructor | cbn; lia]].
    + specialize (IH self0).
      destruct (loop evs self0) as [[self1 out1] running1].
      destruct IH as (calls & Htrace & Hall & Hlen). exists (k :: calls).
      cbn in *. rewrite Htrace.
      split; [reflexivity | split; [constructor; assumption | cbn; lia]].
    + exists [k]. cbn. rewrite app_nil_r.
      split; [reflexivity | split; [| cbn; lia]].
      constructor; [assumption | constructor].
Qed.

Lemma loop_body_disabled self :
  dbw_enabled self = false ->
  existsb is_command (loop_body self).1.2 = false /\
  dbw_enabled (loop_body self).1.1 = false.
Proof.
  intros Hen. destruct (loop_body_attributes self) as [c Hc].
  rewrite Hc. split; [| exact Hen].
  unfold loop_body.
  destruct (proposed_linear_vel self) as [pl |]; [| reflexivity].
  destruct (proposed_angular_vel self) as [pa |]; [| reflexivity].
  destruct (current_linear_vel self) as [cl |]; [| reflexivity].
  destruct (control (controller self) pl pa cl (dbw_enabled self))
    as [c' [throttle brake steering |]]; cbn; [| reflexivity].
  rewrite Hen. reflexivity.
Qed.

(** X2: as long as no message on [/vehicle/dbw_enabled] carries [True], a
    node whose flag is [False], the node at start-up in particular,
    publishes no command, whatever proposals and current velocities arrive
    and whatever the controller returns. *)
Theorem disabled_node_publishes_nothing evs self :
  dbw_enabled self = false ->
  never_enables evs = true ->
  existsb is_command (loop evs self).1.2 = false.
Proof.
  revert self. induction evs as [| e evs IH]; intros self Hen Hev;
    [reflexivity |].
  cbn [never_enables forallb] in Hev. apply andb_prop in Hev.
  destruct Hev as [He Hev]. fold (never_enables evs) in Hev.
  destruct e as [msg | msg | msg |]; cbn [loop callback];
    try (apply IH; [exact Hen | exact Hev]).
  - apply IH; [| exact Hev]. cbn. apply negb_true_iff. exact He.
  - destruct (loop_body_disabled self Hen) as [Hout Hen0].
    destruct (loop_body self) as [[self0 out0] [|]]; cbn in *;
      [| exact Hout].
    specialize (IH self0 Hen0 Hev).
    destruct (loop evs self0) as [[self1 out1] running1]. cbn in *.
    rewrite existsb_app, Hout, IH. reflexivity.
Qed.

(** X4: when the three velocities are set and the controller never raises,
    the loop keeps running and calls [control] exactly once per tick, enabled
    or not. *)
Theorem control_is_called_once_per_tick evs self :
  ready self ->
  (forall c pl pa cl en, (control c pl pa cl en).2 <> Raise) ->
  (loop evs self).2 = true /\
  length (List.filter is_control (loop evs self).1.2) =
  length (List.filter is_tick evs).
Proof.
  intros Hready Hsafe. revert self Hready.
  induction evs as [| e evs IH]; intros self Hready; [split; reflexivity |].
  destruct e; cbn [loop List.filter is_tick];
    try (apply IH; apply (ready_callback _ _ Hready)).
  pose proof (ready_loop_body self Hready) as Hready0.
  destruct Hready as ([pl Hpl] & [pa Hpa] & [cl Hcl]).
  destruct (control (controller self) pl pa cl (dbw_enabled self))
    as [c out] eqn:Hcall.
  rewrite (loop_body_ready self pl pa cl c out Hpl Hpa Hcl Hcall) in *.
  pose proof (Hsafe (controller self) pl pa cl (dbw_enabled self)) as Hout.
  rewrite Hcall in Hout. cbn in Hout, Hready0.
  destruct out as [throttle brake steering |]; [| congruence].
  specialize (IH (set_controller c self) Hready0).
  destruct (loop evs (set_controller c self)) as [[self1 out1] running1].
  cbn in *. destruct IH as [Hrun Hlen]. split; [exact Hrun |].
  f_equal. rewrite List.filter_app, length_app, Hlen.
  destruct (dbw_enabled self); reflexivity.
Qed.

(** *** Under any interleaving *)

(** X10: under every schedule of the threads from start-up, the loop never
    passes [None] to [control]: the attributes tested on lines 128 to 130 are
    read again on lines 133 to 135, and no statement of a callback stores
    [None] in between. *)
Theorem control_never_receives_none server sched :
  (exec sched (init server) At128).1.2 <> NoneArgument.
Proof. apply exec_never_none_argument. exact I. Qed.

(** X11: [dbw_enabled] is read twice in an iteration, for the call on line
    136 and for the test on line 138.  When an enable message is stored
    between the two reads, [control] has been told that drive-by-wire is
    disabled and the triple it returned is published all the same. *)
Theorem enable_between_call_and_test self pl pa cl c throttle brake steering :
  proposed_linear_vel self = Some pl ->
  proposed_angular_vel self = Some pa ->
  current_linear_vel self = Some cl ->
  dbw_enabled self = false ->
  control (controller self) pl pa cl false =
    (c, Return throttle brake steering) ->
  (exec (repeat LoopStep 7 ++ [Line188 (BoolMsg.mk true); LoopStep])
     self At128).2 =
  Control pl pa cl false :: publish throttle brake steering.
Proof.
  intros Hpl Hpa Hcl Hen Hcall.
  repeat (progress (cbn; rewrite ?Hpl, ?Hpa, ?Hcl, ?Hen, ?Hcall)).
  reflexivity.
Qed.

(** *** The parameter server *)

(** X12: a value stored on the parameter server under one of the eight
    options that are passed reaches the [Controller] constructor unchanged,
    at the position of that option, and changes no other argument. *)
Theorem controller_args_override server name pos v :
  In (name, pos) passed_options ->
  controller_args (<[name := v]> server) =
  <[pos := v]> (controller_args server).
Proof.
  intros Hin. unfold passed_options in Hin.
  repeat (destruct Hin as [Hin | Hin];
    [injection Hin as <- <-; unfold controller_args, get_param;
     rewrite lookup_insert_eq; rewrite !lookup_insert_ne by discriminate;
     reflexivity |]).
  destruct Hin.
Qed.

(** *** Iterations that callbacks interleave *)

Lemma turn_store a self p :
  is_store a = true -> turn a self p = (store a self, p, []).
Proof. destruct a; cbn; intros H; solve [reflexivity | discriminate H]. Qed.

Lemma exec_stores g : forall self p,
  forallb is_store g = true -> exec g self p = (stores g self, p, []).
Proof.
  induction g as [| a g IH]; intros self p H; [reflexivity |].
  cbn [forallb] in H. apply andb_prop in H. destruct H as [Ha Hg].
  cbn [exec]. rewrite (turn_store a self p Ha), (IH _ _ Hg). reflexivity.
Qed.

Lemma stores_app g1 g2 self :
  stores (g1 ++ g2) self = stores g2 (stores g1 self).
Proof. unfold stores. apply foldl_app. Qed.

Lemma store_set_controller a c self :
  store a (set_controller c self) = set_controller c (store a self).
Proof. destruct a; reflexivity. Qed.

Lemma stores_set_controller g : forall c self,
  stores g (set_controller c self) = set_controller c (stores g self).
Proof.
  unfold stores. induction g as [| a g IH]; intros c self; [reflexivity |].
  cbn [foldl]. rewrite store_set_controller. apply IH.
Qed.

Lemma stores_controller g : forall self,
  controller (stores g self) = controller self.
Proof.
  unfold stores. induction g as [| a g IH]; intros self; [reflexivity |].
  cbn [foldl]. rewrite IH. destruct a; reflexivity.
Qed.

Lemma ready_stores g : forall self, ready self -> ready (stores g self).
Proof.
  unfold stores. induction g as [| a g IH]; intros self H; [exact H |].
  cbn [foldl]. apply IH. destruct H as (Hpl & Hpa & Hcl).
  destruct a; cbn; unfold ready; cbn; repeat split; eauto.
Qed.

(** A step of the main thread followed by statements of callbacks. *)
Lemma exec_step_stores g rest self p :
  forallb is_store g = true ->
  exec (LoopStep :: g ++ rest) self p =
  let '(self1, p1, out1) := loop_step self p in
  let '(self2, p2, out2) := exec rest (stores g self1) p1 in
  (self2, p2, out1 ++ out2).
Proof.
  intros Hg. cbn [exec turn].
  destruct (loop_step self p) as [[self1 p1] out1].
  rewrite exec_app, (exec_stores g self1 p1 Hg).
  destruct (exec rest (stores g self1) p1) as [[self2 p2] out2].
  reflexivity.
Qed.

Lemma forallb_app_true {A : Type} (f : A -> bool) (l1 l2 : list A) :
  forallb f (l1 ++ l2) = true -> forallb f l1 = true /\ forallb f l2 = true.
Proof. rewrite forallb_app. apply andb_prop. Qed.

(** An iteration that callbacks interleave, step by step: each argument of
    [control] is the attribute as it stands when its load runs, the flag
    given to [control] is the attribute when line 136 runs, and the flag that
    decides on publishing is the attribute when line 138 runs. *)
Lemma exec_interleaved_iteration g1 g2 g3 g4 g5 g6 g7 self pl pa cl c out :
  ready self ->
  forallb is_store (g1 ++ g2 ++ g3 ++ g4 ++ g5 ++ g6 ++ g7) = true ->
  proposed_linear_vel (stores (g1 ++ g2 ++ g3) self) = Some pl ->
  proposed_angular_vel (stores (g1 ++ g2 ++ g3 ++ g4) self) = Some pa ->
  current_linear_vel (stores (g1 ++ g2 ++ g3 ++ g4 ++ g5) self) = Some cl ->
  control (controller self) pl pa cl
    (dbw_enabled (stores (g1 ++ g2 ++ g3 ++ g4 ++ g5 ++ g6) self)) = (c, out) ->
  exec (interleaved_iteration g1 g2 g3 g4 g5 g6 g7) self At128 =
  (set_controller c
     (stores (g1 ++ g2 ++ g3 ++ g4 ++ g5 ++ g6 ++ g7) self),
   (if out is Raise then Exited else At128),
   Control pl pa cl
     (dbw_enabled (stores (g1 ++ g2 ++ g3 ++ g4 ++ g5 ++ g6) self)) ::
   match out with
   | Return throttle brake steering =>
       if dbw_enabled (stores (g1 ++ g2 ++ g3 ++ g4 ++ g5 ++ g6 ++ g7) self)
       then publish throttle brake steering else []
   | Raise => []
   end).
Proof.
  intros Hready Hg Hpl Hpa Hcl Hcall.
  apply forallb_app_true in Hg. destruct Hg as [H1 Hg].
  apply forallb_app_true in Hg. destruct Hg as [H2 Hg].
  apply forallb_app_true in Hg. destruct Hg as [H3 Hg].
  apply forallb_app_true in Hg. destruct Hg as [H4 Hg].
  apply forallb_app_true in Hg. destruct Hg as [H5 Hg].
  apply forallb_app_true in Hg. destruct Hg as [H6 H7].
  rewrite !stores_app in *.
  set (n1 := stores g1 self) in *. set (n2 := stores g2 n1) in *.
  set (n3 := stores g3 n2) in *. set (n4 := stores g4 n3) in *.
  set (n5 := stores g5 n4) in *. set (n6 := stores g6 n5) in *.
  assert (R0 : ready self) by exact Hready.
  assert (R1 : ready n1) by apply ready_stores, R0.
  assert (R2 : ready n2) by apply ready_stores, R1.
  destruct R0 as ([x0 E0] & _ & _). destruct R1 as (_ & [x1 E1] & _).
  destruct R2 as (_ & _ & [x2 E2]).
  unfold interleaved_iteration.
  rewrite (exec_step_stores g1 _ self At128 H1). cbn [loop_step].
  rewrite E0. fold n1.
  rewrite (exec_step_stores g2 _ n1 At129 H2). cbn [loop_step].
  rewrite E1. fold n2.
  rewrite (exec_step_stores g3 _ n2 At130 H3). cbn [loop_step].
  rewrite E2. fold n3.
  rewrite (exec_step_stores g4 _ n3 At133 H4). cbn [loop_step].
  rewrite Hpl. fold n4.
  rewrite (exec_step_stores g5 _ n4 (At134 pl) H5). cbn [loop_step].
  rewrite Hpa. fold n5.
  rewrite (exec_step_stores g6 _ n5 (At135 pl pa) H6). cbn [loop_step].
  rewrite Hcl. fold n6.
  rewrite (exec_step_stores g7 _ n6 (At136 pl pa cl) H7). cbn [loop_step].
  replace (controller n6) with (controller self)
    by (unfold n6, n5, n4, n3, n2, n1; rewrite !stores_controller;
        reflexivity).
  rewrite Hcall. rewrite stores_set_controller.
  destruct out as [throttle brake steering |]; cbn.
  - destruct (dbw_enabled (stores g7 n6)); reflexivity.
  - reflexivity.
Qed.

Lemma exec_ready_iteration g1 g2 g3 g4 g5 g6 g7 self :
  ready self ->
  forallb is_store (g1 ++ g2 ++ g3 ++ g4 ++ g5 ++ g6 ++ g7) = true ->
  exists pl pa cl c out,
    proposed_linear_vel (stores (g1 ++ g2 ++ g3) self) = Some pl /\
    proposed_angular_vel (stores (g1 ++ g2 ++ g3 ++ g4) self) = Some pa /\
    current_linear_vel (stores (g1 ++ g2 ++ g3 ++ g4 ++ g5) self) = Some cl /\
    control (controller self) pl pa cl
      (dbw_enabled (stores (g1 ++ g2 ++ g3 ++ g4 ++ g5 ++ g6) self)) =
      (c, out) /\
    exec (interleaved_iteration g1 g2 g3 g4 g5 g6 g7) self At128 =
    (set_controller c
       (stores (g1 ++ g2 ++ g3 ++ g4 ++ g5 ++ g6 ++ g7) self),
     (if out is Raise then Exited else At128),
     Control pl pa cl
       (dbw_enabled (stores (g1 ++ g2 ++ g3 ++ g4 ++ g5 ++ g6) self)) ::
     match out with
     | Return throttle brake steering =>
         if dbw_enabled
              (stores (g1 ++ g2 ++ g3 ++ g4 ++ g5 ++ g6 ++ g7) self)
         then publish throttle brake steering else []
     | Raise => []
     end).
Proof.
  intros Hready Hg.
  destruct (ready_stores (g1 ++ g2 ++ g3) self Hready) as ([pl Hpl] & _ & _).
  destruct (ready_stores (g1 ++ g2 ++ g3 ++ g4) self Hready)
    as (_ & [pa Hpa] & _).
  destruct (ready_stores (g1 ++ g2 ++ g3 ++ g4 ++ g5) self Hready)
    as (_ & _ & [cl Hcl]).
  destruct (control (controller self) pl pa cl
              (dbw_enabled (stores (g1 ++ g2 ++ g3 ++ g4 ++ g5 ++ g6) self)))
    as [c out] eqn:Hcall.
  exists pl, pa, cl, c, out. repeat (split; [assumption |]).
  apply exec_interleaved_iteration; assumption.
Qed.

Lemma stores_without_line188 g : forall self,
  existsb is_line188 g = false ->
  dbw_enabled (stores g self) = dbw_enabled self.
Proof.
  unfold stores. induction g as [| a g IH]; intros self H; [reflexivity |].
  cbn [existsb] in H. apply orb_false_elim in H. destruct H as [Ha Hg].
  cbn [foldl]. rewrite (IH _ Hg). destruct a; try reflexivity.
  discriminate Ha.
Qed.

(** C2, as the code has it: an iteration that finds the three velocities
    set calls [control], whatever the flag is and whatever statements of
    callbacks run in between, with the proposed linear velocity, the proposed
    angular velocity, the current linear velocity and [dbw_enabled], each as
    it stands when its load runs (lines 133 to 136); the triple that
    [control] returns is handed to [publish] exactly when [dbw_enabled], read
    a second time on line 138, is true.  When no line 188 runs between the
    call and that test the two flags are the same, and when nothing at all
    is interleaved the iteration is [loop_body]. *)
Theorem tick_calls_control_and_tests_flag_again g1 g2 g3 g4 g5 g6 g7 self :
  ready self ->
  forallb is_store (g1 ++ g2 ++ g3 ++ g4 ++ g5 ++ g6 ++ g7) = true ->
  (exists pl pa cl c out,
     proposed_linear_vel (stores (g1 ++ g2 ++ g3) self) = Some pl /\
     proposed_angular_vel (stores (g1 ++ g2 ++ g3 ++ g4) self) = Some pa /\
     current_linear_vel (stores (g1 ++ g2 ++ g3 ++ g4 ++ g5) self) =
       Some cl /\
     control (controller self) pl pa cl
       (dbw_enabled (stores (g1 ++ g2 ++ g3 ++ g4 ++ g5 ++ g6) self)) =
       (c, out) /\
     (exec (interleaved_iteration g1 g2 g3 g4 g5 g6 g7) self At128).2 =
     Control pl pa cl
       (dbw_enabled (stores (g1 ++ g2 ++ g3 ++ g4 ++ g5 ++ g6) self)) ::
     match out with
     | Return throttle brake steering =>
         if dbw_enabled
              (stores (g1 ++ g2 ++ g3 ++ g4 ++ g5 ++ g6 ++ g7) self)
         then publish throttle brake steering else []
     | Raise => []
     end) /\
  (existsb is_line188 g7 = false ->
   dbw_enabled (stores (g1 ++ g2 ++ g3 ++ g4 ++ g5 ++ g6 ++ g7) self) =
   dbw_enabled (stores (g1 ++ g2 ++ g3 ++ g4 ++ g5 ++ g6) self)) /\
  (exec (interleaved_iteration [] [] [] [] [] [] []) self At128).2 =
    (loop_body self).1.2.
Proof.
  intros Hready Hg. split; [| split].
  - destruct (exec_ready_iteration g1 g2 g3 g4 g5 g6 g7 self Hready Hg)
      as (pl & pa & cl & c & out & Hpl & Hpa & Hcl & Hcall & Hexec).
    exists pl, pa, cl, c, out. rewrite Hexec. repeat split; assumption.
  - intros H7. rewrite !app_assoc. rewrite (stores_app _ g7).
    apply stores_without_line188, H7.
  - pose proof (exec_iteration self) as Hseq.
    destruct Hready as ([pl Hpl] & [pa Hpa] & [cl Hcl]).
    unfold iteration_steps in Hseq. rewrite Hpl, Hpa, Hcl in Hseq.
    change (repeat LoopStep 8)
      with (interleaved_iteration [] [] [] [] [] [] []) in Hseq.
    rewrite Hseq. destruct (loop_body self) as [[self' out] running].
    reflexivity.
Qed.

Lemma stores_snoc g a self : stores (g ++ [a]) self = store a (stores g self).
Proof. unfold stores. rewrite foldl_snoc. reflexivity. Qed.

Lemma stores_attributes g : forall self,
  proposed_linear_vel (stores g self) =
    match last_line177 g with
    | Some msg => Some (Vector3.x (Twist.linear (TwistStamped.twist msg)))
    | None => proposed_linear_vel self
    end /\
  proposed_angular_vel (stores g self) =
    match last_line178 g with
    | Some msg => Some (Vector3.z (Twist.angular (TwistStamped.twist msg)))
    | None => proposed_angular_vel self
    end /\
  current_linear_vel (stores g self) =
    match last_line183 g with
    | Some msg => Some (Vector3.x (Twist.linear (TwistStamped.twist msg)))
    | None => current_linear_vel self
    end /\
  dbw_enabled (stores g self) =
    match last_line188 g with
    | Some msg => BoolMsg.data msg
    | None => dbw_enabled self
    end.
Proof.
  induction g as [| a g IH] using rev_ind; intros self.
  - repeat split.
  - rewrite stores_snoc.
    unfold last_line177, last_line178, last_line183, last_line188.
    rewrite !foldl_snoc.
    fold (last_line177 g) (last_line178 g) (last_line183 g) (last_line188 g).
    destruct (IH self) as (Hpl & Hpa & Hcl & Hen).
    destruct a; cbn; repeat split; assumption.
Qed.

(** X8: a tick reads each argument of [control] when its own load runs:
    whatever statements of callbacks run during an iteration that finds the
    three velocities set, [control] is called once, with the [linear.x] of
    the last message whose line 177 ran before the load of line 133, the
    [angular.z] of the last message whose line 178 ran before the load of
    line 134, the [linear.x] of the last message whose line 183 ran before
    the load of line 135 and the flag of the last message whose line 188 ran
    before line 136, or with what the node held at line 128 where no such
    statement ran. *)
Theorem tick_reads_each_argument_at_its_load g1 g2 g3 g4 g5 g6 g7 self :
  ready self ->
  forallb is_store (g1 ++ g2 ++ g3 ++ g4 ++ g5 ++ g6 ++ g7) = true ->
  exists pl pa cl en sent,
    (exec (interleaved_iteration g1 g2 g3 g4 g5 g6 g7) self At128).2 =
      Control pl pa cl en :: sent /\
    existsb is_control sent = false /\
    Some pl =
      match last_line177 (g1 ++ g2 ++ g3) with
      | Some msg => Some (Vector3.x (Twist.linear (TwistStamped.twist msg)))
      | None => proposed_linear_vel self
      end /\
    Some pa =
      match last_line178 (g1 ++ g2 ++ g3 ++ g4) with
      | Some msg => Some (Vector3.z (Twist.angular (TwistStamped.twist msg)))
      | None => proposed_angular_vel self
      end /\
    Some cl =
      match last_line183 (g1 ++ g2 ++ g3 ++ g4 ++ g5) with
      | Some msg => Some (Vector3.x (Twist.linear (TwistStamped.twist msg)))
      | None => current_linear_vel self
      end /\
    en =
      match last_line188 (g1 ++ g2 ++ g3 ++ g4 ++ g5 ++ g6) with
      | Some msg => BoolMsg.data msg
      | None => dbw_enabled self
      end.
Proof.
  intros Hready Hg.
  destruct (exec_ready_iteration g1 g2 g3 g4 g5 g6 g7 self Hready Hg)
    as (pl & pa & cl & c & out & Hpl & Hpa & Hcl & Hcall & Hexec).
  rewrite Hexec. do 5 eexists. split; [reflexivity |].
  split; [| split; [| split; [| split]]].
  - destruct out as [throttle brake steering |]; [| reflexivity].
    destruct
      (dbw_enabled (stores (g1 ++ g2 ++ g3 ++ g4 ++ g5 ++ g6 ++ g7) self));
      reflexivity.
  - rewrite <- Hpl. apply stores_attributes.
  - rewrite <- Hpa. apply stores_attributes.
  - rewrite <- Hcl. apply stores_attributes.
  - apply stores_attributes.
Qed.

(** C9, as the code has it: once [__init__] has stored the initial values
    and the three velocities are set, they stay set under every interleaving
    of the statements of the callbacks with the steps of the loop; and every
    later iteration of the loop, as long as no exception has left the loop,
    passes the tests of lines 128 to 130 and calls [control], once, whether
    the iteration runs to completion or statements of callbacks run between
    its steps. *)
Theorem readiness_is_monotone_once_initialised self :
  ready self ->
  (forall sched p, ready (exec sched self p).1.1) /\
  (forall evs, ready (loop evs self).1.1) /\
  (forall evs,
     (loop evs self).2 = true ->
     exists pl pa cl sent,
       (loop (evs ++ [Tick]) self).1.2 =
       (loop evs self).1.2 ++
       Control pl pa cl (dbw_enabled (loop evs self).1.1) :: sent) /\
  (forall pre g1 g2 g3 g4 g5 g6 g7,
     (exec pre self At128).1.2 = At128 ->
     forallb is_store (g1 ++ g2 ++ g3 ++ g4 ++ g5 ++ g6 ++ g7) = true ->
     exists pl pa cl en sent,
       (exec (pre ++ interleaved_iteration g1 g2 g3 g4 g5 g6 g7) self
          At128).2 =
       (exec pre self At128).2 ++ Control pl pa cl en :: sent /\
       existsb is_control sent = false).
Proof.
  intros Hready. split; [| split; [| split]].
  - intros sched p. apply ready_exec, Hready.
  - intros evs. apply ready_loop, Hready.
  - intros evs Hrun. rewrite loop_app.
    pose proof (ready_loop evs self Hready) as Hready1.
    destruct (loop evs self) as [[self1 out1] running1]. cbn in Hrun, Hready1.
    subst running1. cbn [loop].
    destruct (ready_invokes_control self1 Hready1)
      as (pl & pa & cl & sent & Hsent).
    destruct (loop_body self1) as [[self2 out2] [|]]; cbn in Hsent;
      subst out2; cbn; exists pl, pa, cl; eexists; reflexivity.
  - intros pre g1 g2 g3 g4 g5 g6 g7 Hpc Hg. rewrite exec_app.
    pose proof (ready_exec pre self At128 Hready) as Hready1.
    destruct (exec pre self At128) as [[self1 p1] out1]. cbn in Hpc, Hready1.
    subst p1.
    destruct (exec_ready_iteration g1 g2 g3 g4 g5 g6 g7 self1 Hready1 Hg)
      as (pl & pa & cl & c & out & _ & _ & _ & _ & Hexec).
    rewrite Hexec. cbn. do 5 eexists. split; [reflexivity |].
    destruct out as [throttle brake steering |]; [| reflexivity].
    destruct
      (dbw_enabled (stores (g1 ++ g2 ++ g3 ++ g4 ++ g5 ++ g6 ++ g7) self1));
      reflexivity.
Qed.

(** *** The shape of a trace under any schedule *)

Lemma exec_trace_shape sched : forall self p,
  exists head calls,
    (exec sched self p).2 = head ++ flat_map call_trace calls /\
    (head = [] \/
     exists throttle brake steering,
       p = At138 throttle brake steering /\
       head = publish throttle brake steering).
Proof.
  induction sched as [| a sched IH]; intros self p.
  - exists [], []. split; [reflexivity | left; reflexivity].
  - cbn [exec].
    assert (Hquiet : forall self' p',
      (forall t b s, p' <> At138 t b s) ->
      exists calls, (exec sched self' p').2 = flat_map call_trace calls).
    { intros self' p' Hp. destruct (IH self' p') as (h & calls & Ht & Hh).
      exists calls. rewrite Ht.
      destruct Hh as [-> | (t & b & s & Hp' & _)]; [reflexivity |].
      destruct (Hp t b s Hp'). }
    assert (Hstore : forall self',
      turn a self p = (self', p, []) ->
      exists head calls,
        (let '(self1, p1, out1) := turn a self p in
         let '(self2, p2, out2) := exec sched self1 p1 in
         (self2, p2, out1 ++ out2)).2 = head ++ flat_map call_trace calls /\
        (head = [] \/
         exists throttle brake steering,
           p = At138 throttle brake steering /\
           head = publish throttle brake steering)).
    { intros self' ->. destruct (IH self' p) as (h & calls & Ht & Hh).
      destruct (exec sched self' p) as [[self2 p2] out2].
      exists h, calls. split; [exact Ht | exact Hh]. }
    destruct a; try (eapply Hstore; reflexivity). clear Hstore.
    cbn [turn].
    assert (Hstep : forall self' p',
      loop_step self p = (self', p', []) ->
      (forall t b s, p' <> At138 t b s) ->
      exists head calls,
        (let '(self1, p1, out1) := loop_step self p in
         let '(self2, p2, out2) := exec sched self1 p1 in
         (self2, p2, out1 ++ out2)).2 = head ++ flat_map call_trace calls /\
        (head = [] \/
         exists throttle brake steering,
           p = At138 throttle brake steering /\
           head = publish throttle brake steering)).
    { intros self' p' -> Hp'. destruct (Hquiet self' p' Hp') as (calls & Ht).
      destruct (exec sched self' p') as [[self2 p2] out2].
      exists [], calls. split; [exact Ht | left; reflexivity]. }
    destruct p as [| | | | pl | pl pa | pl pa cl | throttle brake steering | |].
    + eapply Hstep; [reflexivity |].
      destruct (proposed_linear_vel self); discriminate.
    + eapply Hstep; [reflexivity |].
      destruct (proposed_angular_vel self); discriminate.
    + eapply Hstep; [reflexivity |].
      destruct (current_linear_vel self); discriminate.
    + eapply Hstep; [reflexivity |].
      destruct (proposed_linear_vel self); discriminate.
    + eapply Hstep; [reflexivity |].
      destruct (proposed_angular_vel self); discriminate.
    + eapply Hstep; [reflexivity |].
      destruct (current_linear_vel self); discriminate.
    + clear Hstep. cbn [loop_step].
      destruct (control (controller self) pl pa cl (dbw_enabled self))
        as [c [throttle brake steering |]].
      * destruct (IH (set_controller c self) (At138 throttle brake steering))
          as (h & calls & Ht & Hh).
        destruct (exec sched (set_controller c self)
                    (At138 throttle brake steering)) as [[self2 p2] out2].
        cbn in Ht |- *. subst out2.
        destruct Hh as [-> | (t & b & s & [= <- <- <-] & ->)].
        -- exists [], (mkCall pl pa cl (dbw_enabled self) None :: calls).
           split; [reflexivity | left; reflexivity].
        -- exists [],
             (mkCall pl pa cl (dbw_enabled self)
                (Some (throttle, brake, steering)) :: calls).
           split; [reflexivity | left; reflexivity].
      * destruct (Hquiet (set_controller c self) Exited) as (calls & Ht);
          [discriminate |].
        destruct (exec sched (set_controller c self) Exited)
          as [[self2 p2] out2].
        cbn in Ht |- *. subst out2.
        exists [], (mkCall pl pa cl (dbw_enabled self) None :: calls).
        split; [reflexivity | left; reflexivity].
    + clear Hstep. cbn [loop_step].
      destruct (Hquiet self At128) as (calls & Ht); [discriminate |].
      destruct (exec sched self At128) as [[self2 p2] out2].
      cbn in Ht |- *. subst out2.
      destruct (dbw_enabled self).
      * exists (publish throttle brake steering), calls.
        split; [reflexivity |]. right. eauto.
      * exists [], calls. split; [reflexivity | left; reflexivity].
    + eapply Hstep; [reflexivity | discriminate].
    + eapply Hstep; [reflexivity | discriminate].
Qed.

(** *** Schedules that split no pair *)







Lemma unsplit_loop_steps n : forall rest self p,
  unsplit (repeat LoopStep n ++ rest) self p false =
  unsplit rest (exec (repeat LoopStep n) self p).1.1
    (exec (repeat LoopStep n) self p).1.2 false.
Proof.
  induction n as [| n IH]; intros rest self p; [reflexivity |].
  cbn [repeat app unsplit exec turn].
  destruct (loop_step self p) as [[self1 p1] out1]. rewrite IH.
  destruct (exec (repeat LoopStep n) self1 p1) as [[self2 p2] out2].
  reflexivity.
Qed.

(** The schedule in which nothing is interleaved splits no pair. *)
Lemma sequential_unsplit evs : forall self,
  unsplit (sequential evs self) self At128 false = true.
Proof.
  induction evs as [| e evs IH]; intros self; [reflexivity |].
  destruct e; cbn [sequential statements app unsplit turn];
    try apply IH.
  rewrite unsplit_loop_steps, exec_iteration.
  destruct (loop_body self) as [[self1 out1] [|]]; [apply IH | reflexivity].
Qed.

(** X3: under every interleaving of the threads, the trace of the node is a
    sequence of calls of [control], each followed by nothing or by one whole
    triple of commands (throttle, steering, brake, as [publish] sends them):
    no partial triple, no command without a call before it, no csv row.
    When every callback and every iteration runs to completion, there is at
    most one call per tick, and a triple follows only a call that was given
    [enabled = True]. *)
Theorem every_trace_is_calls_and_whole_triples :
  (forall sched self,
     exists calls, (exec sched self At128).2 = flat_map call_trace calls) /\
  (forall evs self,
     exists calls,
       (loop evs self).1.2 = flat_map call_trace calls /\
       Forall (fun k => is_Some (call_published k) -> call_enabled k = true)
         calls /\
       (length calls <= length (List.filter is_tick evs))%nat).
Proof.
  split.
  - intros sched self.
    destruct (exec_trace_shape sched self At128) as (head & calls & Ht & Hh).
    exists calls. rewrite Ht.
    destruct Hh as [-> | (t & b & s & Hp & _)]; [reflexivity | discriminate Hp].
  - intros evs self. apply loop_trace_shape.
Qed.

End Node.

(** ** Sample runs *)

(** A [TwistStamped] message with the given [linear.x], [angular.z] and
    [header.stamp.nsecs]. *)
Definition twist_msg (lin ang : float) (ns : Z) : TwistStamped.t :=
  TwistStamped.mk (Header.mk 0 (Time.mk 0 ns) "")
    (Twist.mk (Vector3.mk lin 0 0) (Vector3.mk 0 0 ang)).

(** Two controllers without state: one returns the same triple on every
    call, the other raises on every call. *)
Definition steady_control (c : unit) (pl pa cl : float) (en : bool)
    : unit * outcome :=
  (c, Return 0.5 0 0.1).

Definition faulty_control (c : unit) (pl pa cl : float) (en : bool)
    : unit * outcome :=
  (c, Raise).

Definition unit_controller (args : list param) : unit := tt.

Definition no_pid (c : unit) : float * float * float := (0, 0, 0)%float.

(** A node that has received a proposal (5.0, 0.0) and a current velocity
    5.0, with drive-by-wire enabled. *)
Definition cruising : DBWNode :=
  mkNode tt (Some 5%float) (Some 0%float) (Some 5%float) None (Some 0)
    true.

(** A second proposal is being stored while the loop runs an iteration: the
    loop's turns fall between line 177 and line 178 of the callback. *)
Definition torn_events : list event :=
  [ DbwEnabled (BoolMsg.mk true);
    Proposed (twist_msg 1 10 100);
    Current (twist_msg 5 0 0);
    Proposed (twist_msg 2 20 200) ].


(** A parameter is the float [f]. *)
Definition is_float (f : float) (p : param) : bool :=
  match p with
  | PFloat g => PrimFloat.eqb g f
  | _ => false
  end.


Lemma In_is_float (f : float) (l : list param) :
  PrimFloat.eqb f f = true -> In (PFloat f) l -> existsb (is_float f) l = true.
Proof.
  intros Hf Hin. apply existsb_exists. exists (PFloat f). split; assumption.
Qed.

(** A tick of a node that has just been constructed. *)
Lemma not_ready_tick_is_silent_witness :
  (proposed_linear_vel (init unit_controller ∅) = None \/
   proposed_angular_vel (init unit_controller ∅) = None \/
   current_linear_vel (init unit_controller ∅) = None) /\
  loop_body steady_control no_pid 2 3 (init unit_controller ∅) =
    (init unit_controller ∅, [], true) /\
  forall n,
    loop steady_control no_pid 2 3 (repeat Tick n) (init unit_controller ∅) =
    (init unit_controller ∅, [], true).
Proof.
  split; [left; reflexivity |].
  apply (not_ready_tick_is_silent steady_control no_pid 2 3).
  left. reflexivity.
Defined.

(** The cruising node with a controller that raises: the first tick is the
    last one. *)
Lemma controller_fault_ends_loop_witness :
  loop faulty_control no_pid 2 3
    [Tick; Proposed (twist_msg 6 0 0); Tick; Tick] cruising =
    (set_controller tt cruising, [Control 5 0 5 true], false) /\
  existsb is_command
    (loop faulty_control no_pid 2 3
       [Tick; Proposed (twist_msg 6 0 0); Tick; Tick] cruising).1.2 = false.
Proof.
  apply (controller_fault_ends_loop faulty_control no_pid 2 3 cruising
           5 0 5 tt); reflexivity.
Defined.

(** C4 fails on the code: with a controller that raises, the second of two
    ticks never runs, so [control] is called once and not twice. *)
Lemma controller_fault_is_fatal :
  (loop faulty_control no_pid 2 3 [Tick; Tick] cruising).1.2 =
    [Control 5 0 5 true] /\
  ~ proceeds_after_fault faulty_control no_pid 2 3.
Proof.
  split; [reflexivity |].
  intros H.
  specialize (H cruising 5%float 0%float 5%float tt [Tick]
                eq_refl eq_refl eq_refl eq_refl).
  vm_compute in H. discriminate H.
Qed.

(** C6 fails on the code: with an empty parameter server the fuel capacity
    resolves to its default 13.5, which is not among the arguments of the
    constructor. *)
Lemma fuel_capacity_is_not_passed :
  get_param ∅ "~fuel_capacity" (PFloat 13.5) = PFloat 13.5 /\
  ~ In (PFloat 13.5) (controller_args ∅) /\
  ~ passes_every_option ∅.
Proof.
  assert (Hnot : ~ In (PFloat 13.5) (controller_args ∅)).
  { intros Hin. apply In_is_float in Hin; [| reflexivity].
    vm_compute in Hin. discriminate Hin. }
  split; [reflexivity | split; [exact Hnot |]].
  intros H. apply Hnot.
  apply (H "~fuel_capacity"%string (PFloat 13.5)).
  right. left. reflexivity.
Qed.



(** ** Further sample runs *)

(** The cruising node with drive-by-wire disabled. *)
Definition parked : DBWNode :=
  mkNode tt (Some 5%float) (Some 0%float) (Some 5%float) None (Some 0)
    false.

(** Ticks and messages in which no current velocity arrives. *)
Definition no_current_events : list event :=
  [ Tick; Proposed (twist_msg 1 10 100); Tick;
    DbwEnabled (BoolMsg.mk true); Tick ].

(** Ticks and messages in which drive-by-wire is never enabled. *)
Definition disabled_events : list event :=
  [ Tick; Proposed (twist_msg 1 10 100); DbwEnabled (BoolMsg.mk false);
    Current (twist_msg 5 0 0); Tick; Tick ].

(** A start-up without a current-velocity message. *)
Lemma main_silent_before_first_messages_witness :
  (main unit_controller steady_control no_pid 2 3 ∅ no_current_events).1.2
    = [] /\
  (main unit_controller steady_control no_pid 2 3 ∅ no_current_events).2
    = true.
Proof.
  apply (main_silent_before_first_messages unit_controller steady_control
           no_pid 2 3 ∅ no_current_events).
  right. intros msg Hin. cbn in Hin.
  repeat (destruct Hin as [Hin | Hin]; [discriminate Hin |]).
  exact Hin.
Defined.

(** The parked node over events that never enable drive-by-wire. *)
Lemma disabled_node_publishes_nothing_witness :
  existsb is_command
    (loop steady_control no_pid 2 3 disabled_events parked).1.2 = false.
Proof.
  apply (disabled_node_publishes_nothing steady_control no_pid 2 3
           disabled_events parked); reflexivity.
Defined.

(** The cruising node with the controller that always returns. *)
Lemma control_is_called_once_per_tick_witness :
  (loop steady_control no_pid 2 3 disabled_events cruising).2 = true /\
  length
    (List.filter is_control
       (loop steady_control no_pid 2 3 disabled_events cruising).1.2) =
  length (List.filter is_tick disabled_events).
Proof.
  apply (control_is_called_once_per_tick steady_control no_pid 2 3
           disabled_events cruising).
  - repeat split; eexists; reflexivity.
  - intros c pl pa cl en. cbn. discriminate.
Defined.

Lemma loop_writes_controller_only_witness :
  exists c,
    (loop steady_control no_pid 2 3 disabled_events cruising).1.1 =
    mkNode c (proposed_linear_vel (callbacks disabled_events cruising))
      (proposed_angular_vel (callbacks disabled_events cruising))
      (current_linear_vel (callbacks disabled_events cruising))
      (current_anuglar_vel (callbacks disabled_events cruising))
      (_time_nsecs (callbacks disabled_events cruising))
      (dbw_enabled (callbacks disabled_events cruising)).
Proof.
  apply (loop_writes_controller_only steady_control no_pid 2 3
           disabled_events cruising).
  reflexivity.
Defined.

(** After two proposals the tick reads the second. *)
Lemma tick_reads_latest_messages_witness :
  exists sent,
    (loop steady_control no_pid 2 3 (torn_events ++ [Tick])
       (init unit_controller ∅)).1.2 =
    (loop steady_control no_pid 2 3 torn_events (init unit_controller ∅)).1.2
    ++ Control 2 20 5 true :: sent.
Proof.
  apply (tick_reads_latest_messages steady_control no_pid 2 3 torn_events
           (init unit_controller ∅) (twist_msg 2 20 200) (twist_msg 5 0 0));
    reflexivity.
Defined.

(** The parked node, enabled between line 136 and line 138. *)
Lemma enable_between_call_and_test_witness :
  (exec steady_control no_pid 2 3
     (repeat LoopStep 7 ++ [Line188 (BoolMsg.mk true); LoopStep])
     parked At128).2 =
  Control 5 0 5 false :: publish 2 3 0.5 0 0.1.
Proof.
  apply (enable_between_call_and_test steady_control no_pid 2 3 parked
           5 0 5 tt 0.5 0 0.1); reflexivity.
Defined.

(** A wheel base set on the parameter server. *)
Lemma controller_args_override_witness :
  controller_args (<["~wheel_base"%string := PFloat 3]> ∅) =
  <[4%nat := PFloat 3]> (controller_args ∅).
Proof.
  apply (controller_args_override ∅ "~wheel_base"%string 4%nat (PFloat 3)).
  do 4 right. left. reflexivity.
Defined.

(** ** Sample interleavings *)


(** A proposal and a current velocity arrive after the subscribers are
    created and before [__init__] stores its initial values. *)
Definition early_events : list event :=
  [ Proposed (twist_msg 1 10 100); Current (twist_msg 5 0 0) ].

Definition early_callbacks : list startup_atom :=
  map CallbackStore (flat_map statements early_events).

Definition early_startup : list startup_atom :=
  early_callbacks ++ map InitStore init_lines.

Lemma steady_control_returns (c : unit) (pl pa cl : float) (en : bool) :
  (steady_control c pl pa cl en).2 <> Raise.
Proof. cbn. discriminate. Qed.

Lemma ready_cruising : ready cruising.
Proof. repeat split; eexists; reflexivity. Qed.

(** C2 fails on the code: [dbw_enabled] is read on line 136 for the call and
    again on line 138 for the test.  When [dbw_enabled_cb] stores [False]
    between the two, [control] is told that drive-by-wire is enabled and
    nothing is published; when it stores [True] between the two, [control] is
    told that drive-by-wire is disabled and the triple is published. *)
Lemma flag_changes_between_call_and_test :
  (exec steady_control no_pid 2 3
     (interleaved_iteration [] [] [] [] [] []
        [Line188 (BoolMsg.mk false)]) cruising At128).2 =
    [Control 5 0 5 true] /\
  (exec steady_control no_pid 2 3
     (interleaved_iteration [] [] [] [] [] []
        [Line188 (BoolMsg.mk true)]) parked At128).2 =
    Control 5 0 5 false :: publish 2 3 0.5 0 0.1 /\
  ~ publishes_iff_told_enabled steady_control no_pid 2 3.
Proof.
  split; [reflexivity | split; [reflexivity |]].
  intros H.
  specialize (H cruising [] [] [] [] [] [] [Line188 (BoolMsg.mk false)]
                5%float 0%float 5%float true []
                ready_cruising eq_refl steady_control_returns eq_refl).
  discriminate H.
Qed.

(** The cruising node, with a second proposal stored during the loads and
    drive-by-wire disabled between the call and the test. *)
Lemma tick_calls_control_and_tests_flag_again_witness :
  let g3 := [Line177 (twist_msg 2 20 200)] in
  let g4 := [Line178 (twist_msg 2 20 200)] in
  let g7 := [Line188 (BoolMsg.mk false)] in
  ready cruising /\
  (exec steady_control no_pid 2 3
     (interleaved_iteration [] [] g3 g4 [] [] g7) cruising At128).2 =
    [Control 2 20 5 true] /\
  (exec steady_control no_pid 2 3
     (interleaved_iteration [] [] [] [] [] [] []) cruising At128).2 =
    (loop_body steady_control no_pid 2 3 cruising).1.2.
Proof.
  intros g3 g4 g7.
  destruct (tick_calls_control_and_tests_flag_again steady_control no_pid 2 3
              [] [] g3 g4 [] [] g7 cruising ready_cruising eq_refl)
    as ((pl & pa & cl & c & out & Hpl & Hpa & Hcl & Hcall & Htrace) & _ & Hseq).
  split; [exact ready_cruising | split; [| exact Hseq]].
  rewrite Htrace. cbn in Hpl, Hpa, Hcl, Hcall.
  injection Hpl as <-. injection Hpa as <-. injection Hcl as <-.
  injection Hcall as <- <-. reflexivity.
Defined.



Lemma early_startup_interleave :
  interleave (map InitStore init_lines)
    (map CallbackStore (flat_map statements early_events)) early_startup.
Proof.
  unfold early_startup, early_callbacks. cbn.
  do 4 apply interleave_right. do 6 apply interleave_left. constructor.
Qed.

(** C9 fails on the code: the subscribers are created on lines 83 to 87,
    before lines 89 to 93 store [None].  When a proposal and a current
    velocity arrive in between, their callbacks set the three velocities,
    [__init__] then unsets them, and the ticks that follow call nothing. *)
Lemma startup_unsets_readiness :
  ready (startup early_callbacks (init unit_controller ∅)) /\
  startup early_startup (init unit_controller ∅) = init unit_controller ∅ /\
  ~ ready (startup early_startup (init unit_controller ∅)) /\
  (loop steady_control no_pid 2 3 [Tick; Tick]
     (startup early_startup (init unit_controller ∅))).1.2 = [] /\
  ~ readiness_never_lost unit_controller ∅.
Proof.
  assert (Hready : ready (startup early_callbacks (init unit_controller ∅)))
    by (repeat split; eexists; reflexivity).
  assert (Hnot : ~ ready (startup early_startup (init unit_controller ∅))).
  { intros ([pl Hpl] & _). discriminate Hpl. }
  split; [exact Hready | split; [reflexivity | split; [exact Hnot |]]].
  split; [reflexivity |].
  intros H. apply Hnot.
  apply (H early_events early_startup early_callbacks
           (map InitStore init_lines) early_startup_interleave eq_refl Hready).
Qed.

(** The cruising node stays ready and every later iteration calls
    [control]. *)
Lemma readiness_is_monotone_once_initialised_witness :
  ready cruising /\
  (forall sched p,
     ready (exec steady_control no_pid 2 3 sched cruising p).1.1) /\
  (forall evs, ready (loop steady_control no_pid 2 3 evs cruising).1.1) /\
  (forall evs,
     (loop steady_control no_pid 2 3 evs cruising).2 = true ->
     exists pl pa cl sent,
       (loop steady_control no_pid 2 3 (evs ++ [Tick]) cruising).1.2 =
       (loop steady_control no_pid 2 3 evs cruising).1.2 ++
       Control pl pa cl
         (dbw_enabled (loop steady_control no_pid 2 3 evs cruising).1.1)
       :: sent) /\
  (forall pre g1 g2 g3 g4 g5 g6 g7,
     (exec steady_control no_pid 2 3 pre cruising At128).1.2 = At128 ->
     forallb is_store (g1 ++ g2 ++ g3 ++ g4 ++ g5 ++ g6 ++ g7) = true ->
     exists pl pa cl en sent,
       (exec steady_control no_pid 2 3
          (pre ++ interleaved_iteration g1 g2 g3 g4 g5 g6 g7) cruising
          At128).2 =
       (exec steady_control no_pid 2 3 pre cruising At128).2 ++
       Control pl pa cl en :: sent /\
       existsb is_control sent = false).
Proof.
  split; [exact ready_cruising |].
  exact (readiness_is_monotone_once_initialised steady_control no_pid 2 3
           cruising ready_cruising).
Defined.

(** The cruising node: the second proposal's line 177 runs before the load
    of line 133 and its line 178 after the load of line 134. *)
Lemma tick_reads_each_argument_at_its_load_witness :
  let g3 := [Line177 (twist_msg 2 20 200)] in
  let g5 := [Line178 (twist_msg 2 20 200)] in
  exists pl pa cl en sent,
    (exec steady_control no_pid 2 3
       (interleaved_iteration [] [] g3 [] g5 [] []) cruising At128).2 =
      Control pl pa cl en :: sent /\
    existsb is_control sent = false /\
    Some pl = Some 2%float /\
    Some pa = Some 0%float /\
    Some cl = Some 5%float /\
    en = true.
Proof.
  intros g3 g5.
  exact (tick_reads_each_argument_at_its_load steady_control no_pid 2 3
           [] [] g3 [] g5 [] [] cruising ready_cruising eq_refl).
Defined.
